(** * A shallow embedding of the portfolio page script (docs/js/main.js)

    The page wires four independent pieces at load time: the split-pane
    controller with its touch companion, the canvas animation, the scroll
    observer (parallax) and the two project-feed renderers.  Each piece is
    modelled here with the state it mutates made explicit.  Browser numbers
    are modelled by rationals [Q] (exact arithmetic, no rounding), extended
    with the JavaScript non-finite values where a division can produce one. *)

From Stdlib Require Import String Ascii QArith Qround Lqa ZArith Lia List Bool.
From Stdlib Require Import Sorted Permutation.
From Stdlib Require Floats.
Import ListNotations.
Open Scope Q_scope.

(* ================================================================== *)
(** ** JavaScript numbers *)
(* ================================================================== *)

(** A JS number: a finite value, one of the infinities, or NaN. *)
Inductive jsnum :=
| JFin (q : Q)
| JPosInf
| JNegInf
| JNaN.

Definition Qltb (x y : Q) : bool := negb (Qle_bool y x).

(** [x / y] on finite operands; a zero divisor gives an infinity or NaN. *)
Definition js_div_q (x y : Q) : jsnum :=
  if Qeq_bool y 0 then
    if Qltb 0 x then JPosInf else if Qltb x 0 then JNegInf else JNaN
  else JFin (x / y).

(** Sign of a finite value as used by multiplication with an infinity. *)
Definition js_scale_inf (x : Q) (inf neg : jsnum) : jsnum :=
  if Qeq_bool x 0 then JNaN else if Qltb 0 x then inf else neg.

Definition js_mul (a b : jsnum) : jsnum :=
  match a, b with
  | JNaN, _ | _, JNaN => JNaN
  | JFin x, JFin y => JFin (x * y)
  | JFin x, JPosInf | JPosInf, JFin x => js_scale_inf x JPosInf JNegInf
  | JFin x, JNegInf | JNegInf, JFin x => js_scale_inf x JNegInf JPosInf
  | JPosInf, JPosInf | JNegInf, JNegInf => JPosInf
  | JPosInf, JNegInf | JNegInf, JPosInf => JNegInf
  end.

Definition js_sub (a b : jsnum) : jsnum :=
  match a, b with
  | JNaN, _ | _, JNaN => JNaN
  | JFin x, JFin y => JFin (x - y)
  | JPosInf, JPosInf | JNegInf, JNegInf => JNaN
  | JPosInf, _ | _, JNegInf => JPosInf
  | JNegInf, _ | _, JPosInf => JNegInf
  end.

(** Strict order on non-NaN numbers. *)
Definition js_lt (a b : jsnum) : bool :=
  match a, b with
  | JFin x, JFin y => Qltb x y
  | JNegInf, JNegInf => false
  | JNegInf, _ => true
  | _, JPosInf => match a with JPosInf => false | _ => true end
  | _, _ => false
  end.

(** [Math.min] and [Math.max] of two arguments. *)
Definition math_min (a b : jsnum) : jsnum :=
  match a, b with
  | JNaN, _ | _, JNaN => JNaN
  | _, _ => if js_lt b a then b else a
  end.

Definition math_max (a b : jsnum) : jsnum :=
  match a, b with
  | JNaN, _ | _, JNaN => JNaN
  | _, _ => if js_lt a b then b else a
  end.

(** [Math.min] and [Math.max] on finite values, as the touch companion uses them. *)
Definition qmin (a b : Q) : Q := if Qltb b a then b else a.
Definition qmax (a b : Q) : Q := if Qltb a b then b else a.

(* ================================================================== *)
(** ** Split pane: SplitPaneController and the touch companion *)
(* ================================================================== *)

(** A CSS length as written by a template literal: [`${n}%`], [`${n}vh`]
    or [`${n}px`]. *)
Inductive css_len :=
| Pct (n : jsnum)
| Vh (n : jsnum)
| Px (n : jsnum).

Record sec_style := mk_style {
  s_width : option css_len;
  s_height : option css_len;
  s_overflowY : option string
}.

Definition set_width (v : css_len) (s : sec_style) : sec_style :=
  mk_style (Some v) (s_height s) (s_overflowY s).
Definition set_height (v : css_len) (s : sec_style) : sec_style :=
  mk_style (s_width s) (Some v) (s_overflowY s).
Definition set_overflowY (v : string) (s : sec_style) : sec_style :=
  mk_style (s_width s) (s_height s) (Some v).

(** Layout values the handlers read: [window.innerWidth],
    [window.innerHeight], [container.offsetWidth], [container.offsetHeight]
    and [leftPanel.offsetHeight]. *)
Record layout := mk_layout {
  innerWidth : Z;
  innerHeight : Z;
  container_offsetWidth : Z;
  container_offsetHeight : Z;
  leftPanel_offsetHeight : Z
}.

(** The mutable state of the split pane: the controller's [isDragging], the
    body cursor, the two sections' inline styles and the closure variables
    [isDragging], [startY], [startHeight] of the touch companion registered
    on DOMContentLoaded, with the divider's [active] class. *)
Record pane := mk_pane {
  isDragging : bool;
  body_cursor : string;
  primary : sec_style;
  secondary : sec_style;
  touch_isDragging : bool;
  startY : Q;
  startHeight : Q;
  divider_active : bool
}.

Definition with_drag (b : bool) (c : string) (p : pane) : pane :=
  mk_pane b c (primary p) (secondary p) (touch_isDragging p) (startY p)
    (startHeight p) (divider_active p).
Definition with_sections (s1 s2 : sec_style) (p : pane) : pane :=
  mk_pane (isDragging p) (body_cursor p) s1 s2 (touch_isDragging p) (startY p)
    (startHeight p) (divider_active p).
Definition with_touch (b : bool) (y h : Q) (act : bool) (p : pane) : pane :=
  mk_pane (isDragging p) (body_cursor p) (primary p) (secondary p) b y h act.

Module SplitPaneController.

Definition MIN_SIZE_PERCENTAGE : jsnum := JFin 20.
Definition MAX_SIZE_PERCENTAGE : jsnum := JFin 80.

Definition isDesktopViewport (env : layout) : bool := (1024 <=? innerWidth env)%Z.

Definition getCursorStyle (env : layout) : string :=
  if isDesktopViewport env then "col-resize" else "row-resize".

Definition handleDragStart (env : layout) (p : pane) : pane :=
  with_drag true (getCursorStyle env) p.

Definition handleDragEnd (p : pane) : pane := with_drag false "default" p.

Definition getBoundedPercentage (percentage : jsnum) : jsnum :=
  math_max MIN_SIZE_PERCENTAGE (math_min MAX_SIZE_PERCENTAGE percentage).

Definition handleHorizontalResize (env : layout) (p : pane) (clientX : Q) : pane :=
  let containerWidth := inject_Z (container_offsetWidth env) in
  let percentage := js_mul (js_div_q clientX containerWidth) (JFin 100) in
  let boundedPercentage := getBoundedPercentage percentage in
  with_sections (set_width (Pct boundedPercentage) (primary p))
    (set_width (Pct (js_sub (JFin 100) boundedPercentage)) (secondary p)) p.

Definition handleVerticalResize (env : layout) (p : pane) (clientY : Q) : pane :=
  let containerHeight := inject_Z (container_offsetHeight env) in
  let percentage := js_mul (js_div_q clientY containerHeight) (JFin 100) in
  let boundedPercentage := getBoundedPercentage percentage in
  with_sections (set_height (Vh boundedPercentage) (primary p))
    (set_height (Vh (js_sub (JFin 100) boundedPercentage)) (secondary p)) p.

Definition handleDragMove (env : layout) (p : pane) (clientX clientY : Q) : pane :=
  if negb (isDragging p) then p
  else if isDesktopViewport env then handleHorizontalResize env p clientX
  else handleVerticalResize env p clientY.

Definition resetDesktopLayout (p : pane) : pane :=
  with_sections (set_height (Pct (JFin 100)) (primary p))
    (set_height (Pct (JFin 100)) (secondary p)) p.

Definition resetMobileLayout (p : pane) : pane :=
  with_sections
    (set_overflowY "auto" (set_height (Vh (JFin 50)) (set_width (Pct (JFin 100)) (primary p))))
    (set_overflowY "auto" (set_height (Vh (JFin 50)) (set_width (Pct (JFin 100)) (secondary p))))
    p.

Definition handleWindowResize (env : layout) (p : pane) : pane :=
  if isDesktopViewport env then resetDesktopLayout p else resetMobileLayout p.

End SplitPaneController.

(** The touch companion registered on DOMContentLoaded, outside the class. *)
Module TouchCompanion.

Definition on_touchstart (env : layout) (p : pane) (clientY : Q) : pane :=
  with_touch true clientY (inject_Z (leftPanel_offsetHeight env)) true p.

(** The document [touchmove] listener; the boolean is whether it called
    [preventDefault]. *)
Definition on_touchmove (env : layout) (p : pane) (clientY : Q) : pane * bool :=
  if negb (touch_isDragging p) then (p, false)
  else
    let deltaY := clientY - startY p in
    let ih := inject_Z (innerHeight env) in
    let newHeight := qmax 100 (qmin (startHeight p + deltaY) (ih - 100)) in
    (with_sections (set_height (Px (JFin newHeight)) (primary p))
       (set_height (Px (JFin (ih - newHeight))) (secondary p)) p, true).

Definition on_touchend (p : pane) : pane :=
  with_touch false (startY p) (startHeight p) false p.

End TouchCompanion.

(** Event targets: the divider or any other element of the page. *)
Inductive target := OnDivider | Elsewhere.

Definition is_divider (t : target) : bool :=
  match t with OnDivider => true | Elsewhere => false end.

Inductive pane_event :=
| TouchStart (t : target) (clientX clientY : Q)
| TouchMove (t : target) (clientX clientY : Q)
| TouchEnd
| MouseDown (t : target) (clientX clientY : Q)
| MouseMove (clientX clientY : Q)
| MouseUp
| WindowResize.

(** Dispatch of one event to every listener of the split pane, returning the
    new state and whether [preventDefault] was called.  Target-phase
    listeners on the divider run before the bubbling ones on [document];
    on each node the touch companion's listeners were registered first (its
    DOMContentLoaded callback is added before the one that builds the
    controller). *)
Definition dispatch (env : layout) (p : pane) (ev : pane_event) : pane * bool :=
  match ev with
  | TouchStart OnDivider _ y =>
      let p1 := TouchCompanion.on_touchstart env p y in
      (SplitPaneController.handleDragStart env p1, true)
  | TouchStart Elsewhere _ _ => (p, false)
  | TouchMove t x y =>
      let prevented0 := is_divider t in
      let (p1, prevented1) := TouchCompanion.on_touchmove env p y in
      let prevented2 := isDragging p1 in
      (SplitPaneController.handleDragMove env p1 x y,
       prevented0 || prevented1 || prevented2)
  | TouchEnd =>
      (SplitPaneController.handleDragEnd (TouchCompanion.on_touchend p), false)
  | MouseDown OnDivider _ _ => (SplitPaneController.handleDragStart env p, false)
  | MouseDown Elsewhere _ _ => (p, false)
  | MouseMove x y => (SplitPaneController.handleDragMove env p x y, false)
  | MouseUp => (SplitPaneController.handleDragEnd p, false)
  | WindowResize => (SplitPaneController.handleWindowResize env p, false)
  end.

Fixpoint run_pane (env : layout) (p : pane) (evs : list pane_event) : pane :=
  match evs with
  | [] => p
  | ev :: rest => run_pane env (fst (dispatch env p ev)) rest
  end.

Definition empty_style : sec_style := mk_style None None None.

Definition pane_init : pane :=
  mk_pane false "" empty_style empty_style false 0 0 false.

(* ================================================================== *)
(** ** Decimal rendering of naturals (template literals) *)
(* ================================================================== *)

Fixpoint string_of_nat_aux (fuel n : nat) (acc : string) : string :=
  match fuel with
  | O => acc
  | S f =>
      let acc' := String (ascii_of_nat (48 + Nat.modulo n 10)) acc in
      if Nat.ltb n 10 then acc' else string_of_nat_aux f (Nat.div n 10) acc'
  end.

Definition string_of_nat (n : nat) : string := string_of_nat_aux (S n) n "".

Definition string_of_Z (z : Z) : string :=
  if (z <? 0)%Z then String "-" (string_of_nat (Z.to_nat (- z)))
  else string_of_nat (Z.to_nat z).

(* ================================================================== *)
(** ** Canvas animation: CanvasAnimationController *)
(* ================================================================== *)

Record dot := mk_dot {
  dot_x : Q;
  dot_y : Q;
  dot_scale : Q;
  dot_color : string;
  dot_speed : Q
}.

(** A rendered word; its [text] is [undefined] ([None]) only if the random
    index falls outside the available terms. *)
Record word := mk_word {
  w_text : option string;
  w_x : Q;
  w_y : Q;
  w_rotation : Q;
  w_alpha : Q
}.

(** [usedWords] is a JS [Set]: kept in insertion order, without duplicates
    when only [set_add] extends it. *)
Record canvas := mk_canvas {
  dots : list dot;
  renderedWords : list word;
  usedWords : list (option string);
  lastTextPosition : Q * Q;
  mousePosition : Q * Q
}.

Module CanvasAnimationController.

Definition designTerms : list string :=
  ["UI Designer"; "UX Design"; "Motion"; "Prototype";
   "Wireframe"; "User Flow"; "Research"; "Figma";
   "Design System"; "User Testing"; "Interaction"]%string.

Definition opt_string_eqb (a b : option string) : bool :=
  match a, b with
  | Some x, Some y => String.eqb x y
  | None, None => true
  | _, _ => false
  end.

Definition set_has (s : list (option string)) (x : option string) : bool :=
  existsb (opt_string_eqb x) s.

Definition set_add (s : list (option string)) (x : option string) : list (option string) :=
  if set_has s x then s else (s ++ [x])%list.

Definition NUM_DOTS : nat := 5.

Definition dot_color_of (i : nat) : string :=
  ("rgba(" ++ string_of_nat (135 - i * 10) ++ ", " ++ string_of_nat (206 - i * 5)
   ++ ", " ++ string_of_nat (235 - i * 12) ++ ", 0.6)")%string.

(** [createDots] pushes [NUM_DOTS] dots at the current mouse position. *)
Definition createDots (mouse : Q * Q) : list dot :=
  map (fun i => mk_dot (fst mouse) (snd mouse)
                  (1 - inject_Z (Z.of_nat i) * (2 # 10))
                  (dot_color_of i)
                  ((1 # 10) + inject_Z (Z.of_nat i) * (2 # 100)))
      (seq 0 NUM_DOTS).

(** [updateDots] read in exact rational arithmetic: the easing step without
    the float64 rounding of the source (see [Float64Dots] for that). *)
Definition update_dot (mouse : Q * Q) (d : dot) : dot :=
  mk_dot (dot_x d + (fst mouse - dot_x d) * dot_speed d)
         (dot_y d + (snd mouse - dot_y d) * dot_speed d)
         (dot_scale d) (dot_color d) (dot_speed d).

Definition updateDots (c : canvas) : canvas :=
  mk_canvas (map (update_dot (mousePosition c)) (dots c)) (renderedWords c)
    (usedWords c) (lastTextPosition c) (mousePosition c).

(** The three [Math.random()] draws a frame may consume: the 5% gate, the
    choice among available terms and the rotation. *)
Record draws := mk_draws {
  r_gen : Q;
  r_pick : Q;
  r_rotation : Q
}.

(** [Math.random()] returns values in [0, 1). *)
Definition draws_ok (r : draws) : Prop :=
  0 <= r_gen r < 1 /\ 0 <= r_pick r < 1 /\ 0 <= r_rotation r < 1.

(** Squared Euclidean distance; [Math.hypot(dx, dy) < 150] holds exactly
    when it is below [150 * 150]. *)
Definition dist2 (p q : Q * Q) : Q :=
  (fst p - fst q) * (fst p - fst q) + (snd p - snd q) * (snd p - snd q).

Definition addText (c : canvas) (x y : Q) (r : draws) : canvas :=
  if Qltb (dist2 (x, y) (lastTextPosition c)) (150 * 150) then c
  else
    let availableTerms :=
      filter (fun term => negb (set_has (usedWords c) (Some term))) designTerms in
    match availableTerms with
    | [] => mk_canvas (dots c) (renderedWords c) [] (lastTextPosition c) (mousePosition c)
    | _ =>
      let idx := Qfloor (r_pick r * inject_Z (Z.of_nat (length availableTerms))) in
      let text := if (idx <? 0)%Z then None
                  else nth_error availableTerms (Z.to_nat idx) in
      mk_canvas (dots c)
        (renderedWords c ++ [mk_word text x y (r_rotation r * 40 - 20) 0])%list
        (set_add (usedWords c) text) (x, y) (mousePosition c)
    end.

Definition handleWordGeneration (c : canvas) (r : draws) : canvas :=
  if Qltb (95 # 100) (r_gen r) && Nat.ltb (length (usedWords c)) (length designTerms)
  then addText c (fst (mousePosition c) + 30) (snd (mousePosition c)) r
  else c.

Definition fade_word (w : word) : word :=
  if Qltb (w_alpha w) 1
  then mk_word (w_text w) (w_x w) (w_y w) (w_rotation w) (w_alpha w + (5 # 100))
  else w.

Definition drawWords (c : canvas) : canvas :=
  mk_canvas (dots c) (map fade_word (renderedWords c)) (usedWords c)
    (lastTextPosition c) (mousePosition c).

(** One [animateFrame]: clearing and drawing the dots leave the state alone. *)
Definition animateFrame (c : canvas) (r : draws) : canvas :=
  drawWords (handleWordGeneration (updateDots c) r).

Definition on_mousemove (c : canvas) (clientX clientY rectLeft rectTop : Q) : canvas :=
  mk_canvas (dots c) (renderedWords c) (usedWords c) (lastTextPosition c)
    (clientX - rectLeft, clientY - rectTop).

(** The constructor: mouse at the origin, dots created there. *)
Definition init : canvas :=
  mk_canvas (createDots (0, 0)) [] [] (0, 0) (0, 0).

End CanvasAnimationController.

(** The trailing dots with the source's float64 arithmetic: [createDots] and
    [updateDots] as the engine evaluates them, every [+], [-] and [*]
    rounded to the nearest double. *)
Module Float64Dots.

Import Floats.PrimFloat.
#[local] Set Warnings "-inexact-float".
Local Open Scope float_scope.

Record fdot := mk_fdot {
  fdot_x : float;
  fdot_y : float;
  fdot_scale : float;
  fdot_color : string;
  fdot_speed : float
}.

(** The loop index [i] as a JS number. *)
Definition float_of_nat (i : nat) : float := of_uint63 (Uint63.of_Z (Z.of_nat i)).

Definition createDots (mouse : float * float) : list fdot :=
  map (fun i => mk_fdot (fst mouse) (snd mouse)
                  (1 - float_of_nat i * 0.2)
                  (CanvasAnimationController.dot_color_of i)
                  (0.1 + float_of_nat i * 0.02))
      (seq 0 CanvasAnimationController.NUM_DOTS).

(** [dot.x += (this.mousePosition.x - dot.x) * dot.speed], and the same for
    [y]. *)
Definition update_dot (mouse : float * float) (d : fdot) : fdot :=
  mk_fdot (fdot_x d + (fst mouse - fdot_x d) * fdot_speed d)
          (fdot_y d + (snd mouse - fdot_y d) * fdot_speed d)
          (fdot_scale d) (fdot_color d) (fdot_speed d).

Definition updateDots (mouse : float * float) (ds : list fdot) : list fdot :=
  map (update_dot mouse) ds.

(** [n] animation frames with the pointer held still. *)
Fixpoint frames (n : nat) (mouse : float * float) (ds : list fdot) : list fdot :=
  match n with
  | O => ds
  | S k => frames k mouse (updateDots mouse ds)
  end.

(** The page-load mouse position [{x: 0, y: 0}] and a pointer moved to
    client (300, 40) over a canvas whose rectangle starts at the origin. *)
Definition origin : float * float := (0, 0).
Definition pointer_300_40 : float * float := (300 - 0, 40 - 0).

End Float64Dots.

Inductive canvas_event :=
| CMouseMove (clientX clientY rectLeft rectTop : Q)
| CFrame (r : CanvasAnimationController.draws).

Definition canvas_event_ok (ev : canvas_event) : Prop :=
  match ev with
  | CFrame r => CanvasAnimationController.draws_ok r
  | CMouseMove _ _ _ _ => True
  end.

Definition canvas_step (c : canvas) (ev : canvas_event) : canvas :=
  match ev with
  | CMouseMove x y l t => CanvasAnimationController.on_mousemove c x y l t
  | CFrame r => CanvasAnimationController.animateFrame c r
  end.

Fixpoint run_canvas (c : canvas) (evs : list canvas_event) : canvas :=
  match evs with
  | [] => c
  | ev :: rest => run_canvas (canvas_step c ev) rest
  end.

Definition word_pos (w : word) : Q * Q := (w_x w, w_y w).

(** A run that places every vocabulary term: before each of eleven frames
    the pointer moves 200 pixels further right, and the frame's 5% gate
    draw is 0.99. *)
Definition placing_draws : CanvasAnimationController.draws :=
  CanvasAnimationController.mk_draws (99 # 100) 0 (1 # 2).

Fixpoint placing_events (k : nat) : list canvas_event :=
  match k with
  | O => []
  | S k' => (placing_events k' ++
             [CMouseMove (inject_Z (200 * Z.of_nat k)) 100 0 0; CFrame placing_draws])%list
  end.

Definition exhausted_canvas : canvas :=
  run_canvas CanvasAnimationController.init (placing_events 11).

(* ================================================================== *)
(** ** Scroll observer: the parallax listener *)
(* ================================================================== *)

(** The [requestAnimationFrame] callback the scroll listener registers. *)
Inductive raf_cb := ParallaxUpdate.

(** A parallax layer's [translate3d(0, ${moveY}px, 0)]. *)
Inductive transform := Translate3dY (moveY : jsnum).

(** The page state the parallax effect touches: [window.scrollY], whether
    the document is among the pending scroll event targets, the animation
    frame callback list, the [data-depth] attribute of each
    [.parallax-layer] ([None] when absent) and each layer's transform. *)
Record scroll_state := mk_scroll {
  scrollY : Q;
  scroll_pending : bool;
  raf_queue : list raf_cb;
  layers : list (option string);
  transforms : list (option transform)
}.

(** Browser events: a change of scroll position, and one rendering update
    (one frame).  Per the HTML event loop, a scroll-position change only
    marks the document as a pending scroll target; the [scroll] event is
    fired in the frame's scroll steps, before its animation frame callbacks
    run. *)
Inductive scroll_event :=
| UserScroll (y : Q)
| RenderingUpdate.

Section ScrollObserver.

(** [ToNumber] on strings, as the engine implements it. *)
Variable to_number : string -> jsnum.

(** [layer.dataset.depth || 0.1], converted by the multiplication. *)
Definition depth_factor (attr : option string) : jsnum :=
  match attr with
  | None => JFin (1 # 10)
  | Some s => if String.eqb s "" then JFin (1 # 10) else to_number s
  end.

Definition parallax_transform (y : Q) (attr : option string) : transform :=
  Translate3dY (js_mul (JFin y) (depth_factor attr)).

(** The body of the [requestAnimationFrame] callback. *)
Definition run_parallax_cb (s : scroll_state) (cb : raf_cb) : scroll_state :=
  match cb with
  | ParallaxUpdate =>
      mk_scroll (scrollY s) (scroll_pending s) (raf_queue s) (layers s)
        (map (fun a => Some (parallax_transform (scrollY s) a)) (layers s))
  end.

(** The window [scroll] listener of [setupParallaxEffect]. *)
Definition on_scroll (s : scroll_state) : scroll_state :=
  mk_scroll (scrollY s) (scroll_pending s) (raf_queue s ++ [ParallaxUpdate])%list
    (layers s) (transforms s).

(** The scroll steps of a rendering update. *)
Definition run_scroll_steps (s : scroll_state) : scroll_state :=
  if scroll_pending s then
    on_scroll (mk_scroll (scrollY s) false (raf_queue s) (layers s) (transforms s))
  else s.

(** Running the animation frame callbacks: the list is taken and emptied,
    then each callback runs; the count of callbacks run is returned. *)
Definition run_animation_frame_callbacks (s : scroll_state) : scroll_state * nat :=
  let cbs := raf_queue s in
  let s0 := mk_scroll (scrollY s) (scroll_pending s) [] (layers s) (transforms s) in
  (fold_left run_parallax_cb cbs s0, List.length cbs).

(** One event; the number is how many parallax recomputations it ran. *)
Definition scroll_step (s : scroll_state) (ev : scroll_event) : scroll_state * nat :=
  match ev with
  | UserScroll y =>
      (mk_scroll y true (raf_queue s) (layers s) (transforms s), 0%nat)
  | RenderingUpdate => run_animation_frame_callbacks (run_scroll_steps s)
  end.

Fixpoint run_scroll (s : scroll_state) (evs : list scroll_event) : scroll_state :=
  match evs with
  | [] => s
  | ev :: rest => run_scroll (fst (scroll_step s ev)) rest
  end.

End ScrollObserver.

(** The state right after [new ScrollObserverController()]. *)
Definition scroll_init (ls : list (option string)) : scroll_state :=
  mk_scroll 0 false [] ls (map (fun _ => None) ls).

(* ================================================================== *)
(** ** Project feed renderers *)
(* ================================================================== *)

#[local] Set Warnings "-register-all".

(** JSON values as [response.json()] produces them (numbers are integers
    here: the feeds only carry counts, ids and timestamps). *)
Inductive json :=
| JNull
| JBool (b : bool)
| JNum (z : Z)
| JStr (s : string)
| JArr (items : list json)
| JObj (fields : list (string * json)).

(** The blocks a container's [innerHTML] is made of. *)
Inductive block :=
| Spinner
| RepoCard (repo : json)
| FigmaCard (file : json)
| ErrorDiv (text : string).

(** An HTTP response: its status and its body, [None] when the body is not
    valid JSON. *)
Record response := mk_response {
  status : Z;
  body : option json
}.

Definition response_ok (r : response) : bool := (200 <=? status r)%Z && (status r <=? 299)%Z.

(** How one [fetch] settles: rejected with an error message, or resolved. *)
Inductive fetch_outcome :=
| FReject (message : string)
| FResolve (r : response).

(** A thrown JS error, seen through its [message]. *)
Inductive exn := Exn (message : string).

Definition exn_message (e : exn) : string := match e with Exn m => m end.

(** The renderer's world: its container element ([None] when the page has
    no such element) and the outcomes of the fetches it will issue, in the
    order it awaits them. *)
Record world := mk_world {
  container : option (list block);
  network : list fetch_outcome
}.

(** An async renderer run: it completes, its promise rejects with an
    escaping error, or it waits forever on a fetch that never settles. *)
Inductive outcome (A : Type) :=
| Done (a : A) (w : world)
| Thrown (e : exn) (w : world)
| Pending (w : world).
Arguments Done {A}.
Arguments Thrown {A}.
Arguments Pending {A}.

Definition M (A : Type) : Type := world -> outcome A.

Definition ret {A} (a : A) : M A := fun w => Done a w.

Definition bind {A B} (m : M A) (k : A -> M B) : M B :=
  fun w => match m w with
           | Done a w' => k a w'
           | Thrown e w' => Thrown e w'
           | Pending w' => Pending w'
           end.

Definition throw {A} (e : exn) : M A := fun w => Thrown e w.

(** [try { m } catch (e) { h(e) }] *)
Definition try_catch {A} (m : M A) (h : exn -> M A) : M A :=
  fun w => match m w with
           | Thrown e w' => h e w'
           | r => r
           end.

Notation "x <- m ;; k" := (bind m (fun x => k))
  (at level 61, m at next level, right associativity).
Notation "m ;;; k" := (bind m (fun _ => k))
  (at level 61, right associativity).

Fixpoint mapM {A B} (f : A -> M B) (l : list A) : M (list B) :=
  match l with
  | [] => ret []
  | x :: rest => y <- f x ;; ys <- mapM f rest ;; ret (y :: ys)
  end.

Definition type_error_reading (v : string) (k : string) : exn :=
  Exn ("Cannot read properties of " ++ v ++ " (reading '" ++ k ++ "')").

Definition not_iterable_error : exn := Exn "object is not iterable".

Definition json_syntax_error : exn := Exn "Unexpected token in JSON".

(** [container.innerHTML = ...] *)
Definition set_container (c : list block) : M unit :=
  fun w => match container w with
           | None => Thrown (Exn "Cannot set properties of null (setting 'innerHTML')") w
           | Some _ => Done tt (mk_world (Some c) (network w))
           end.

Definition container_exists : M bool :=
  fun w => Done (match container w with Some _ => true | None => false end) w.

(** [await fetch(...)] *)
Definition fetch : M response :=
  fun w => match network w with
           | [] => Pending w
           | FReject m :: rest => Thrown (Exn m) (mk_world (container w) rest)
           | FResolve r :: rest => Done r (mk_world (container w) rest)
           end.

(** [await response.json()] *)
Definition response_json (r : response) : M json :=
  match body r with
  | None => throw json_syntax_error
  | Some j => ret j
  end.

(** JSON.parse keeps the last of duplicate keys. *)
Definition lookup_field (k : string) (fs : list (string * json)) : option json :=
  match find (fun kv => String.eqb (fst kv) k) (rev fs) with
  | Some (_, v) => Some v
  | None => None
  end.

(** [v.k] on a JS value; [None] stands for [undefined]. *)
Definition get_prop (v : option json) (k : string) : M (option json) :=
  match v with
  | None => throw (type_error_reading "undefined" k)
  | Some JNull => throw (type_error_reading "null" k)
  | Some (JObj fs) => ret (lookup_field k fs)
  | Some _ => ret None
  end.

Fixpoint string_chars (s : string) : list json :=
  match s with
  | EmptyString => []
  | String a s' => JStr (String a EmptyString) :: string_chars s'
  end.

(** The elements [for ... of] and spread iterate over. *)
Definition iterate (v : option json) : M (list json) :=
  match v with
  | Some (JArr l) => ret l
  | Some (JStr s) => ret (string_chars s)
  | _ => throw not_iterable_error
  end.

Module GitHubFeed.

Definition invalid_data_message : string :=
  "Error: Could not load projects. Invalid data received from GitHub API.".

(** One repository card; its template first reads [repo.private]. *)
Definition render_repo (repo : json) : M block :=
  _ <- get_prop (Some repo) "private" ;; ret (RepoCard repo).

Definition fetchGitHubRepos : M unit :=
  try_catch
    (set_container [Spinner] ;;;
     response <- fetch ;;
     if negb (response_ok response)
     then throw (Exn ("GitHub API error: " ++ string_of_Z (status response)))
     else
       repos <- response_json response ;;
       match repos with
       | JArr items => cards <- mapM render_repo items ;; set_container cards
       | _ => set_container [ErrorDiv invalid_data_message]
       end)
    (fun error => set_container [ErrorDiv ("Error loading projects: " ++ exn_message error)]).

End GitHubFeed.

Module FigmaFeed.

Section WithDateParser.

(** [Date.parse] on strings, as the engine implements it. *)
Variable parse_date : string -> jsnum.

(** The time value of [new Date(v)]; arrays and objects are taken as invalid
    dates. *)
Definition date_value (v : option json) : jsnum :=
  match v with
  | None => JNaN
  | Some JNull => JFin 0
  | Some (JBool b) => JFin (if b then 1 else 0)
  | Some (JNum z) => JFin (inject_Z z)
  | Some (JStr s) => parse_date s
  | Some (JArr _) | Some (JObj _) => JNaN
  end.

(** [(a, b) => new Date(b.last_modified) - new Date(a.last_modified)] *)
Definition compare_files (a b : json) : M jsnum :=
  lb <- get_prop (Some b) "last_modified" ;;
  la <- get_prop (Some a) "last_modified" ;;
  ret (js_sub (date_value lb) (date_value la)).

(** [SortCompare]: a positive comparator result puts its second argument
    first; NaN counts as 0. *)
Definition js_positive (v : jsnum) : bool :=
  match v with
  | JFin q => Qltb 0 q
  | JPosInf => true
  | _ => false
  end.

(** [Array.prototype.sort] with [compare_files], as a stable insertion sort
    (the sort is stable; with a consistent comparator every stable sort gives
    this order). *)
Fixpoint insert_file (x : json) (sorted : list json) : M (list json) :=
  match sorted with
  | [] => ret [x]
  | y :: rest =>
      c <- compare_files y x ;;
      if js_positive c then ret (x :: y :: rest)
      else rest' <- insert_file x rest ;; ret (y :: rest')
  end.

Fixpoint sort_files_aux (l acc : list json) : M (list json) :=
  match l with
  | [] => ret acc
  | x :: rest => acc' <- insert_file x acc ;; sort_files_aux rest acc'
  end.

Definition sort_files (l : list json) : M (list json) := sort_files_aux l [].

Definition getFigmaProjectFiles (projectId : option json) : M (option json) :=
  try_catch
    (response <- fetch ;;
     data <- response_json response ;;
     get_prop (Some data) "files")
    (fun _ => ret (Some (JArr []))).

(** One file card; its template first reads [file.thumbnail_url]. *)
Definition renderFigmaProject (file : json) : M block :=
  _ <- get_prop (Some file) "thumbnail_url" ;; ret (FigmaCard file).

Definition renderFigmaProjects (files : list json) : M unit :=
  ok <- container_exists ;;
  if ok then cards <- mapM renderFigmaProject files ;; set_container cards
  else ret tt.

(** The [for (const project of projectsData.projects)] loop. *)
Fixpoint collect_files (projects : list json) (allFiles : list json) : M (list json) :=
  match projects with
  | [] => ret allFiles
  | project :: rest =>
      projectId <- get_prop (Some project) "id" ;;
      files <- getFigmaProjectFiles projectId ;;
      items <- iterate files ;;
      collect_files rest (allFiles ++ items)%list
  end.

Definition fetchRecentFigmaFiles : M unit :=
  ok <- container_exists ;;
  if negb ok then ret tt
  else
    try_catch
      (set_container [Spinner] ;;;
       projectsResponse <- fetch ;;
       projectsData <- response_json projectsResponse ;;
       projects <- get_prop (Some projectsData) "projects" ;;
       projectList <- iterate projects ;;
       allFiles <- collect_files projectList [] ;;
       recentFiles <- sort_files allFiles ;;
       renderFigmaProjects (firstn 5 recentFiles))
      (fun error => set_container [ErrorDiv (exn_message error)]).

End WithDateParser.

End FigmaFeed.

(** A design file as the file-list endpoint describes it. *)
Record figma_file := mk_figma_file {
  f_key : string;
  f_name : string;
  f_thumbnail_url : string;
  f_last_modified : string
}.

Definition file_json (f : figma_file) : json :=
  JObj [("key"%string, JStr (f_key f)); ("name"%string, JStr (f_name f));
        ("thumbnail_url"%string, JStr (f_thumbnail_url f));
        ("last_modified"%string, JStr (f_last_modified f))].

Definition team_body (projects : list json) : json := JObj [("projects"%string, JArr projects)].
Definition files_body (files : list figma_file) : json :=
  JObj [("files"%string, JArr (map file_json files))].

(** Whether [s] occurs in [t]. *)
Fixpoint string_contains (t s : string) : bool :=
  prefix s t || match t with
                | EmptyString => false
                | String _ t' => string_contains t' s
                end.

(** Whether a renderer run ends with an error escaping it (a rejected
    promise). *)
Definition escapes {A} (o : outcome A) : bool :=
  match o with Thrown _ _ => true | _ => false end.

(** Repository-feed failures: a rejected fetch, a non-2xx status, a body
    that is not JSON, or a JSON body that is not an array. *)
Definition github_fails (o : fetch_outcome) : bool :=
  match o with
  | FReject _ => true
  | FResolve r =>
      negb (response_ok r) ||
      match body r with Some (JArr _) => false | _ => true end
  end.

(** Whether a team-projects body carries an iterable [projects] list. *)
Definition projects_iterable (j : json) : bool :=
  match j with
  | JObj fs => match lookup_field "projects" fs with
               | Some (JArr _) | Some (JStr _) => true
               | _ => false
               end
  | _ => false
  end.

(** Team-projects failures: a rejected fetch, a body that is not JSON, or a
    body without an iterable [projects] list. *)
Definition team_fails (o : fetch_outcome) : bool :=
  match o with
  | FReject _ => true
  | FResolve r => match body r with
                  | None => true
                  | Some j => negb (projects_iterable j)
                  end
  end.

Section FileOrder.

Variable parse_date : string -> jsnum.

(** The time value of a file's [last_modified]. *)
Definition file_time (f : figma_file) : Q :=
  match parse_date (f_last_modified f) with JFin q => q | _ => 0 end.

Definition valid_time (f : figma_file) : Prop :=
  exists q, parse_date (f_last_modified f) = JFin q.

(** The sort of [fetchRecentFigmaFiles] on well-formed files: newest first,
    ties kept in arrival order. *)
Fixpoint ins_desc (x : figma_file) (l : list figma_file) : list figma_file :=
  match l with
  | [] => [x]
  | y :: rest => if Qltb (file_time y) (file_time x) then x :: y :: rest
                 else y :: ins_desc x rest
  end.

Fixpoint sort_desc_aux (l acc : list figma_file) : list figma_file :=
  match l with
  | [] => acc
  | x :: rest => sort_desc_aux rest (ins_desc x acc)
  end.

End FileOrder.

(** The number made of the decimal digits of a string: on ISO-8601
    timestamps of one fixed format it orders them as [Date.parse] does. *)
Fixpoint digits_value (s : string) (acc : Z) : Z :=
  match s with
  | EmptyString => acc
  | String a s' =>
      let n := Z.of_nat (nat_of_ascii a) in
      if ((48 <=? n) && (n <=? 57))%Z then digits_value s' (acc * 10 + n - 48)
      else digits_value s' acc
  end.

Definition iso_digits_time (s : string) : jsnum := JFin (inject_Z (digits_value s 0)).

Definition sample_file (k d : string) : figma_file := mk_figma_file k k "" d.

Definition sample_files1 : list figma_file :=
  [sample_file "a" "2024-01-03T10:00:00Z"; sample_file "b" "2024-01-07T10:00:00Z";
   sample_file "c" "2024-01-01T10:00:00Z"]%string.

Definition sample_files2 : list figma_file :=
  [sample_file "d" "2024-01-05T10:00:00Z"; sample_file "e" "2024-01-02T10:00:00Z";
   sample_file "f" "2024-01-06T10:00:00Z"; sample_file "g" "2024-01-04T10:00:00Z"]%string.

(* ================================================================== *)
(** ** Class lists, section reveal and the profile toggles *)
(* ================================================================== *)

(** An element's [classList]: an ordered set of tokens. *)
Definition class_list := list string.

Definition cl_contains (l : class_list) (c : string) : bool := existsb (String.eqb c) l.

Definition cl_add (l : class_list) (c : string) : class_list :=
  if cl_contains l c then l else (l ++ [c])%list.

Definition cl_remove (l : class_list) (c : string) : class_list :=
  filter (fun x => negb (String.eqb x c)) l.

Definition cl_toggle (l : class_list) (c : string) : class_list :=
  if cl_contains l c then cl_remove l c else cl_add l c.

(** A [.reveal-section] element: its classes and its inline
    [transitionDelay] ([None] before it is set). *)
Record reveal_section := mk_reveal {
  rs_classes : class_list;
  rs_delay : option string
}.

(** An IntersectionObserver entry: the index of its target among the
    observed sections and [isIntersecting]. *)
Record io_entry := mk_entry {
  entry_target : nat;
  isIntersecting : bool
}.

Fixpoint update_nth {A} (f : A -> A) (n : nat) (l : list A) : list A :=
  match l, n with
  | [], _ => []
  | x :: rest, O => f x :: rest
  | x :: rest, S n' => x :: update_nth f n' rest
  end.

Module ScrollObserverController.

(** [section.style.transitionDelay = `${index * 200}ms`] for each section. *)
Definition initializeObservers (secs : list reveal_section) : list reveal_section :=
  map (fun '(i, s) =>
         mk_reveal (rs_classes s) (Some (string_of_nat (i * 200) ++ "ms")%string))
      (combine (seq 0 (List.length secs)) secs).

Definition handleSectionIntersection (secs : list reveal_section) (e : io_entry)
  : list reveal_section :=
  if isIntersecting e
  then update_nth (fun s => mk_reveal (cl_add (rs_classes s) "active") (rs_delay s))
                  (entry_target e) secs
  else secs.

(** The observer callback: [entries.forEach(entry => ...)]. *)
Definition observer_callback (secs : list reveal_section) (entries : list io_entry)
  : list reveal_section :=
  fold_left handleSectionIntersection entries secs.

End ScrollObserverController.

(** The outcome of a call that may throw a [TypeError]. *)
Inductive call_result (A : Type) :=
| Returned (a : A)
| ThrewTypeError.
Arguments Returned {A}.
Arguments ThrewTypeError {A}.

(** [toggleProfileVisibility] on [#profileContainer] ([None] when the page
    has no such element, and [container.classList] throws). *)
Definition toggleProfileVisibility (container : option class_list) : call_result class_list :=
  match container with
  | None => ThrewTypeError
  | Some cl => Returned (cl_toggle (cl_toggle cl "hidden") "flex")
  end.

(** The callbacks [toggleProfileImage] schedules: the [requestAnimationFrame]
    callback of an opening and the [setTimeout] callback of a closing. *)
Inductive modal_cb := FinishOpen | FinishClose.

(** The page as [toggleProfileImage] sees it: the classes of
    [#profile-modal] ([None] when absent), the animation frame callback
    list, the timer list (due time, callback) in scheduling order and the
    current time in milliseconds. *)
Record modal_world := mk_modal_world {
  modal : option class_list;
  modal_raf : list modal_cb;
  modal_timers : list (nat * modal_cb);
  now : nat
}.

Definition with_modal (cl : class_list) (w : modal_world) : modal_world :=
  mk_modal_world (Some cl) (modal_raf w) (modal_timers w) (now w).

Definition run_modal_cb (w : modal_world) (cb : modal_cb) : modal_world :=
  match modal w, cb with
  | None, _ => w
  | Some cl, FinishOpen =>
      with_modal (cl_remove (cl_remove cl "translate-y-full") "opacity-0") w
  | Some cl, FinishClose => with_modal (cl_add cl "hidden") w
  end.

(** [window.toggleProfileImage]; nothing in its [try] block throws once the
    modal is found. *)
Definition toggleProfileImage (w : modal_world) : modal_world :=
  match modal w with
  | None => w
  | Some cl =>
      if cl_contains cl "hidden"
      then mk_modal_world (Some (cl_remove cl "hidden")) (modal_raf w ++ [FinishOpen])%list
             (modal_timers w) (now w)
      else mk_modal_world (Some (cl_add (cl_add cl "translate-y-full") "opacity-0"))
             (modal_raf w) (modal_timers w ++ [((now w + 300)%nat, FinishClose)])%list (now w)
  end.

(** A click on the toggle, a rendering update (its animation frame
    callbacks run), or time passing; every timeout is 300 ms and time only
    grows, so scheduling order is due order. *)
Inductive modal_event :=
| ToggleClick
| ModalFrame
| Advance (ms : nat).

Definition modal_step (w : modal_world) (ev : modal_event) : modal_world :=
  match ev with
  | ToggleClick => toggleProfileImage w
  | ModalFrame =>
      fold_left run_modal_cb (modal_raf w)
        (mk_modal_world (modal w) [] (modal_timers w) (now w))
  | Advance d =>
      let t := (now w + d)%nat in
      let due := filter (fun '(at_, _) => Nat.leb at_ t) (modal_timers w) in
      let later := filter (fun '(at_, _) => negb (Nat.leb at_ t)) (modal_timers w) in
      fold_left run_modal_cb (map snd due) (mk_modal_world (modal w) (modal_raf w) later t)
  end.

Fixpoint run_modal (w : modal_world) (evs : list modal_event) : modal_world :=
  match evs with
  | [] => w
  | ev :: rest => run_modal (modal_step w ev) rest
  end.

(* ================================================================== *)
(** ** Statement helpers *)
(* ================================================================== *)

(** Whether an event starts the controller's drag (a press or touch on the
    divider) or ends it (a mouseup or touchend anywhere). *)
Definition drag_signal (ev : pane_event) : option bool :=
  match ev with
  | MouseDown OnDivider _ _ | TouchStart OnDivider _ _ => Some true
  | MouseUp | TouchEnd => Some false
  | _ => None
  end.

(** The same for the touch companion, which only listens to touches. *)
Definition touch_signal (ev : pane_event) : option bool :=
  match ev with
  | TouchStart OnDivider _ _ => Some true
  | TouchEnd => Some false
  | _ => None
  end.

(** The signal of the last event of a run that gives one. *)
Fixpoint last_signal (sig : pane_event -> option bool) (evs : list pane_event) : option bool :=
  match evs with
  | [] => None
  | ev :: rest => match last_signal sig rest with
                  | Some b => Some b
                  | None => sig ev
                  end
  end.

(** Pointer moves, and presses or touches away from the divider. *)
Definition is_pointer_move (ev : pane_event) : bool :=
  match ev with
  | MouseMove _ _ | TouchMove _ _ _ | MouseDown Elsewhere _ _ | TouchStart Elsewhere _ _ => true
  | _ => false
  end.

(** A file-list response of one project: its status and its files. *)
Definition project_response (x : Z * list figma_file) : fetch_outcome :=
  FResolve (mk_response (fst x) (Some (files_body (snd x)))).

(* ================================================================== *)
(** ** Statement helpers for the page behaviour *)
(* ================================================================== *)

(** The value a run leaves: [f b] for the last signal [b], [d] without one. *)
Definition sig_default {A} (d : A) (f : bool -> A) (o : option bool) : A :=
  match o with Some b => f b | None => d end.

(** [b] lies between [a] and [m] (inclusive). *)
Definition q_between (a b m : Q) : Prop := (a <= b /\ b <= m) \/ (m <= b /\ b <= a).

(** How a rendered word may change over time: same text, position and
    rotation, an opacity that never decreases and stops changing once it
    reaches 1. *)
Definition word_evolves (w w' : word) : Prop :=
  w_text w' = w_text w /\ word_pos w' = word_pos w /\ w_rotation w' = w_rotation w /\
  w_alpha w <= w_alpha w' /\ (1 <= w_alpha w -> w_alpha w' = w_alpha w).

(** A word's opacity is non-negative and at most one fade step above 1. *)
Definition alpha_ok (w : word) : Prop := 0 <= w_alpha w /\ w_alpha w < 21 # 20.

(** A dot's easing factor lies strictly between 0 and 1. *)
Definition speed_ok (d : dot) : Prop := 0 < dot_speed d < 1.

(** Whether [#profile-modal] exists and carries class [c]. *)
Definition modal_has (w : modal_world) (c : string) : bool :=
  match modal w with Some cl => cl_contains cl c | None => false end.

(** A project's file-list request: rejected with a message, or resolved
    with a status and a [files] list. *)
Definition project_outcome (x : string + (Z * list figma_file)) : fetch_outcome :=
  match x with inl m => FReject m | inr y => project_response y end.

(** The files such a request contributes. *)
Definition project_files (x : string + (Z * list figma_file)) : list figma_file :=
  match x with inl _ => [] | inr y => snd y end.

(* ================================================================== *)
(** * Theorems *)
(* ================================================================== *)

Lemma Qltb_true (x y : Q) : Qltb x y = true <-> x < y.
Proof.
  unfold Qltb. rewrite negb_true_iff. split; intro H.
  - apply Qnot_le_lt. intro H'. apply Qle_bool_iff in H'. congruence.
  - destruct (Qle_bool y x) eqn:E; [|reflexivity].
    apply Qle_bool_iff in E. exfalso. apply (Qlt_not_le x y); assumption.
Qed.

Lemma Qltb_false (x y : Q) : Qltb x y = false <-> y <= x.
Proof.
  unfold Qltb. rewrite negb_false_iff. apply Qle_bool_iff.
Qed.

Lemma qmin_le_r (a b : Q) : qmin a b <= b.
Proof.
  unfold qmin. destruct (Qltb b a) eqn:E.
  - apply Qle_refl.
  - apply Qltb_false in E. exact E.
Qed.

Lemma qmax_ge_l (a b : Q) : a <= qmax a b.
Proof.
  unfold qmax. destruct (Qltb a b) eqn:E.
  - apply Qltb_true in E. apply Qlt_le_weak. exact E.
  - apply Qle_refl.
Qed.

Lemma qmax_cases (a b : Q) : qmax a b = a \/ qmax a b = b.
Proof. unfold qmax. destruct (Qltb a b); auto. Qed.

Lemma bounded_percentage_fin (p : Q) :
  exists b, SplitPaneController.getBoundedPercentage (JFin p) = JFin b
            /\ 20 <= b /\ b <= 80.
Proof.
  unfold SplitPaneController.getBoundedPercentage, math_max, math_min,
    SplitPaneController.MIN_SIZE_PERCENTAGE,
    SplitPaneController.MAX_SIZE_PERCENTAGE, js_lt.
  destruct (Qltb p 80) eqn:E1.
  - apply Qltb_true in E1.
    destruct (Qltb 20 p) eqn:E2.
    + apply Qltb_true in E2. exists p. split; [reflexivity|lra].
    + apply Qltb_false in E2. exists 20. split; [reflexivity|lra].
  - apply Qltb_false in E1.
    destruct (Qltb 20 80) eqn:E2.
    + exists 80. split; [reflexivity|lra].
    + apply Qltb_false in E2. lra.
Qed.

Lemma js_div_q_pos (x : Q) (w : Z) :
  (0 < w)%Z -> js_div_q x (inject_Z w) = JFin (x / inject_Z w).
Proof.
  intro Hw. unfold js_div_q.
  destruct (Qeq_bool (inject_Z w) 0) eqn:E; [|reflexivity].
  apply Qeq_bool_iff in E. unfold Qeq in E. simpl in E. lia.
Qed.

(** ** Split pane *)

Definition env_desktop : layout := mk_layout 1280 800 1000 800 400.
Definition env_short : layout := mk_layout 600 150 600 150 75.

(** C1: while the controller is Dragging, a drag-move computes a bounded
    percentage in [20, 80] from the pointer position over the container
    extent, and writes it and a complementary size summing to 100 to the
    primary and secondary sections: widths in percent on a desktop
    viewport, heights in vh otherwise.  The container is laid out (its
    extents are positive). *)
Theorem drag_move_bounded_complementary (env : layout) (p : pane) (clientX clientY : Q)
  (Hdrag : isDragging p = true)
  (Hw : (0 < container_offsetWidth env)%Z) (Hh : (0 < container_offsetHeight env)%Z) :
  let p' := SplitPaneController.handleDragMove env p clientX clientY in
  exists b c : Q, 20 <= b /\ b <= 80 /\ b + c == 100 /\
    if SplitPaneController.isDesktopViewport env then
      SplitPaneController.getBoundedPercentage
        (js_mul (js_div_q clientX (inject_Z (container_offsetWidth env))) (JFin 100)) = JFin b
      /\ s_width (primary p') = Some (Pct (JFin b))
      /\ s_width (secondary p') = Some (Pct (JFin c))
    else
      SplitPaneController.getBoundedPercentage
        (js_mul (js_div_q clientY (inject_Z (container_offsetHeight env))) (JFin 100)) = JFin b
      /\ s_height (primary p') = Some (Vh (JFin b))
      /\ s_height (secondary p') = Some (Vh (JFin c)).
Proof.
  cbv zeta. unfold SplitPaneController.handleDragMove. rewrite Hdrag. simpl negb. cbv iota.
  destruct (SplitPaneController.isDesktopViewport env).
  - unfold SplitPaneController.handleHorizontalResize.
    rewrite (js_div_q_pos clientX _ Hw). simpl js_mul.
    destruct (bounded_percentage_fin (clientX / inject_Z (container_offsetWidth env) * 100))
      as [b [Hb [H20 H80]]].
    rewrite Hb. exists b, (100 - b). repeat split; try assumption; simpl; try ring.
  - unfold SplitPaneController.handleVerticalResize.
    rewrite (js_div_q_pos clientY _ Hh). simpl js_mul.
    destruct (bounded_percentage_fin (clientY / inject_Z (container_offsetHeight env) * 100))
      as [b [Hb [H20 H80]]].
    rewrite Hb. exists b, (100 - b). repeat split; try assumption; simpl; try ring.
Qed.

Lemma drag_move_bounded_complementary_witness :
  isDragging (SplitPaneController.handleDragStart env_desktop pane_init) = true /\
  (0 < container_offsetWidth env_desktop)%Z /\ (0 < container_offsetHeight env_desktop)%Z /\
  let p' := SplitPaneController.handleDragMove env_desktop
              (SplitPaneController.handleDragStart env_desktop pane_init) 950 10 in
  exists b c : Q, 20 <= b /\ b <= 80 /\ b + c == 100 /\
    if SplitPaneController.isDesktopViewport env_desktop then
      SplitPaneController.getBoundedPercentage
        (js_mul (js_div_q 950 (inject_Z (container_offsetWidth env_desktop))) (JFin 100)) = JFin b
      /\ s_width (primary p') = Some (Pct (JFin b))
      /\ s_width (secondary p') = Some (Pct (JFin c))
    else
      SplitPaneController.getBoundedPercentage
        (js_mul (js_div_q 10 (inject_Z (container_offsetHeight env_desktop))) (JFin 100)) = JFin b
      /\ s_height (primary p') = Some (Vh (JFin b))
      /\ s_height (secondary p') = Some (Vh (JFin c)).
Proof.
  split; [reflexivity|]. split; [vm_compute; reflexivity|]. split; [vm_compute; reflexivity|].
  apply drag_move_bounded_complementary; [reflexivity | vm_compute; reflexivity | vm_compute; reflexivity].
Defined.

(** C5 (counterexample): after a touch on the divider has started and a
    touch has ended, the controller is no longer Dragging, yet a touch-move
    on the divider still has its default prevented (by the divider's own
    touchmove listener). *)
Lemma touch_move_prevented_while_idle :
  let p := run_pane env_short pane_init [TouchStart OnDivider 10 70; TouchEnd] in
  isDragging p = false /\ snd (dispatch env_short p (TouchMove OnDivider 10 90)) = true.
Proof. split; reflexivity. Qed.

(** C5 (amended): a touch-start on the divider always has its default
    prevented; a touch-move has its default prevented exactly when the
    controller is Dragging, the touch companion's drag flag is set, or the
    touch-move targets the divider; a touch-end leaves both the controller
    and the companion out of the drag. *)
Theorem touch_interaction_prevent_default (env : layout) (p : pane) :
  (forall x y, snd (dispatch env p (TouchStart OnDivider x y)) = true) /\
  (forall t x y, snd (dispatch env p (TouchMove t x y))
                 = isDragging p || touch_isDragging p || is_divider t) /\
  isDragging (fst (dispatch env p TouchEnd)) = false /\
  touch_isDragging (fst (dispatch env p TouchEnd)) = false.
Proof.
  split; [reflexivity|]. split; [|split; reflexivity].
  intros t x y. simpl dispatch. unfold TouchCompanion.on_touchmove.
  destruct (touch_isDragging p) eqn:E; simpl;
    destruct (is_divider t), (isDragging p); reflexivity.
Qed.

(** C10 (counterexample): on a viewport 150 pixels high, a touch-move
    handled by the touch companion while its drag flag is set writes a
    primary height of 100 pixels, above innerHeight - 100 = 50. *)
Lemma companion_height_above_upper_bound :
  let p := fst (dispatch env_short pane_init (TouchStart OnDivider 10 70)) in
  touch_isDragging p = true /\
  s_height (primary (fst (TouchCompanion.on_touchmove env_short p 70))) = Some (Px (JFin 100)) /\
  inject_Z (innerHeight env_short) - 100 < 100.
Proof. split; [reflexivity|]. split; [reflexivity|]. vm_compute. reflexivity. Qed.

(** C10 (amended): each touch-move handled by the touch companion while its
    drag flag is set prevents the default, writes the primary panel's
    height max(100, min(startHeight + deltaY, innerHeight - 100)) in pixels
    and the secondary's innerHeight minus it, so the two sum to the viewport
    height; that height is at least 100, and at most innerHeight - 100 when
    the viewport is at least 200 pixels high. *)
Theorem companion_touchmove_pixel_heights (env : layout) (p : pane) (clientY : Q)
  (Hdrag : touch_isDragging p = true) :
  let ih := inject_Z (innerHeight env) in
  let r := TouchCompanion.on_touchmove env p clientY in
  snd r = true /\
  exists h : Q,
    h = qmax 100 (qmin (startHeight p + (clientY - startY p)) (ih - 100)) /\
    s_height (primary (fst r)) = Some (Px (JFin h)) /\
    s_height (secondary (fst r)) = Some (Px (JFin (ih - h))) /\
    100 <= h /\ ((200 <= innerHeight env)%Z -> h <= ih - 100) /\ h + (ih - h) == ih.
Proof.
  cbv zeta. unfold TouchCompanion.on_touchmove. rewrite Hdrag. simpl.
  split; [reflexivity|].
  eexists. split; [reflexivity|]. split; [reflexivity|]. split; [reflexivity|].
  split; [apply qmax_ge_l|]. split; [|ring].
  intro H200. assert (Hq : 200 <= inject_Z (innerHeight env)).
  { change 200 with (inject_Z 200). rewrite <- Zle_Qle. exact H200. }
  destruct (qmax_cases 100 (qmin (startHeight p + (clientY - startY p))
                                 (inject_Z (innerHeight env) - 100))) as [E|E];
    rewrite E; [lra | apply qmin_le_r].
Qed.

Lemma companion_touchmove_pixel_heights_witness :
  let p := fst (dispatch env_desktop pane_init (TouchStart OnDivider 10 300)) in
  touch_isDragging p = true /\
  let ih := inject_Z (innerHeight env_desktop) in
  let r := TouchCompanion.on_touchmove env_desktop p 500 in
  snd r = true /\
  exists h : Q,
    h = qmax 100 (qmin (startHeight p + (500 - startY p)) (ih - 100)) /\
    s_height (primary (fst r)) = Some (Px (JFin h)) /\
    s_height (secondary (fst r)) = Some (Px (JFin (ih - h))) /\
    100 <= h /\ ((200 <= innerHeight env_desktop)%Z -> h <= ih - 100) /\ h + (ih - h) == ih.
Proof.
  split; [reflexivity|].
  apply companion_touchmove_pixel_heights. reflexivity.
Defined.

(** ** Canvas animation *)

Module CanvasFacts.
Import CanvasAnimationController.

Definition pos_list (c : canvas) : list (Q * Q) := map word_pos (renderedWords c).

Lemma set_has_false_not_in (l : list (option string)) (x : option string) :
  set_has l x = false -> ~ In x l.
Proof.
  unfold set_has. intros H Hin.
  assert (Hx : opt_string_eqb x x = true).
  { destruct x as [s|]; simpl; [apply String.eqb_refl | reflexivity]. }
  assert (existsb (opt_string_eqb x) l = true) by (apply existsb_exists; eauto).
  congruence.
Qed.

Lemma fade_word_pos (w : word) : word_pos (fade_word w) = word_pos w.
Proof. unfold fade_word. destruct (Qltb (w_alpha w) 1); reflexivity. Qed.

Lemma pos_list_drawWords (c : canvas) : pos_list (drawWords c) = pos_list c.
Proof.
  unfold pos_list, drawWords. simpl. rewrite map_map.
  apply map_ext. apply fade_word_pos.
Qed.

(** The random index [Math.floor(Math.random() * n)] is a valid position. *)
Lemma random_index_in_range (r : Q) (n : nat) :
  0 <= r < 1 -> (0 < n)%nat ->
  (0 <= Qfloor (r * inject_Z (Z.of_nat n)))%Z /\
  (Z.to_nat (Qfloor (r * inject_Z (Z.of_nat n))) < n)%nat.
Proof.
  intros [H0 H1] Hn.
  assert (Hnq : 0 < inject_Z (Z.of_nat n)).
  { change 0 with (inject_Z 0). rewrite <- Zlt_Qlt. lia. }
  assert (Hlo : (0 <= Qfloor (r * inject_Z (Z.of_nat n)))%Z).
  { change 0%Z with (Qfloor 0). apply Qfloor_resp_le.
    apply Qmult_le_0_compat; lra. }
  split; [exact Hlo|].
  assert (Hlt : r * inject_Z (Z.of_nat n) < inject_Z (Z.of_nat n)).
  { setoid_replace (inject_Z (Z.of_nat n)) with (1 * inject_Z (Z.of_nat n)) at 2 by ring.
    apply Qmult_lt_r; assumption. }
  pose proof (Qfloor_le (r * inject_Z (Z.of_nat n))) as Hf.
  assert (Hz : (Qfloor (r * inject_Z (Z.of_nat n)) < Z.of_nat n)%Z).
  { rewrite Zlt_Qlt. lra. }
  lia.
Qed.

(** What [addText] does: nothing, the vocabulary reset, or the placement of
    one word at [(x, y)], at least 150 pixels from the last text position. *)
Lemma addText_cases (c : canvas) (x y : Q) (r : draws) :
  let c' := addText c x y r in
  c' = c \/
  (renderedWords c' = renderedWords c /\ usedWords c' = [] /\
   lastTextPosition c' = lastTextPosition c) \/
  (exists w, renderedWords c' = renderedWords c ++ [w] /\ word_pos w = (x, y) /\
     150 * 150 <= dist2 (x, y) (lastTextPosition c) /\
     lastTextPosition c' = (x, y) /\ usedWords c' = set_add (usedWords c) (w_text w) /\
     (draws_ok r -> exists t, w_text w = Some t /\ In t designTerms /\
                             set_has (usedWords c) (Some t) = false)).
Proof.
  cbv zeta. unfold addText.
  destruct (Qltb (dist2 (x, y) (lastTextPosition c)) (150 * 150)) eqn:Ed;
    [left; reflexivity|].
  apply Qltb_false in Ed.
  remember (filter (fun term => negb (set_has (usedWords c) (Some term))) designTerms)
    as avail eqn:Ea.
  destruct avail as [|t0 rest]; [right; left; simpl; auto|].
  right; right. eexists. split; [reflexivity|]. split; [reflexivity|].
  split; [exact Ed|]. split; [reflexivity|]. split; [reflexivity|].
  intros [_ [Hpick _]]. cbn [w_text].
  destruct (random_index_in_range (r_pick r) (List.length (t0 :: rest)) Hpick)
    as [Hlo Hhi]; [simpl; lia|].
  destruct (Qfloor (r_pick r * inject_Z (Z.of_nat (List.length (t0 :: rest)))) <? 0)%Z
    eqn:Eneg; [apply Z.ltb_lt in Eneg; lia|].
  destruct (nth_error (t0 :: rest) _) as [t|] eqn:En.
  - exists t. split; [reflexivity|].
    apply nth_error_In in En. rewrite Ea in En.
    apply filter_In in En as [Hin Hnot]. split; [exact Hin|].
    apply negb_true_iff in Hnot. exact Hnot.
  - apply nth_error_None in En. lia.
Qed.

(** One event of the canvas, seen on the word list, the used-word set and
    the last text position. *)
Lemma canvas_step_cases (c : canvas) (ev : canvas_event) :
  let c' := canvas_step c ev in
  (pos_list c' = pos_list c /\ usedWords c' = usedWords c /\
   lastTextPosition c' = lastTextPosition c) \/
  (pos_list c' = pos_list c /\ usedWords c' = [] /\
   lastTextPosition c' = lastTextPosition c) \/
  (exists w, pos_list c' = pos_list c ++ [word_pos w] /\
     150 * 150 <= dist2 (word_pos w) (lastTextPosition c) /\
     lastTextPosition c' = word_pos w /\ usedWords c' = set_add (usedWords c) (w_text w) /\
     (canvas_event_ok ev -> exists t, w_text w = Some t /\ In t designTerms /\
                                     set_has (usedWords c) (Some t) = false)).
Proof.
  cbv zeta. destruct ev as [x y l t | r]; simpl canvas_step.
  - left. unfold on_mousemove, pos_list. simpl. auto.
  - unfold animateFrame. rewrite pos_list_drawWords. simpl.
    unfold handleWordGeneration.
    destruct (Qltb (95 # 100) (r_gen r) &&
              Nat.ltb (List.length (usedWords (updateDots c))) (List.length designTerms)).
    2: { left. unfold pos_list, updateDots. simpl. auto. }
    destruct (addText_cases (updateDots c) (fst (mousePosition (updateDots c)) + 30)
                (snd (mousePosition (updateDots c))) r)
      as [E|[[E1 [E2 E3]]|[w [E1 [E2 [E3 [E4 [E5 E6]]]]]]]].
    + left. rewrite E. unfold pos_list, updateDots. simpl. auto.
    + right; left. unfold pos_list. rewrite E1, E2, E3. simpl. auto.
    + right; right. exists w. unfold pos_list. rewrite E1, map_app. simpl.
      rewrite E2. repeat split; assumption.
Qed.

(** The invariant of reachable canvases: the last text position is that of
    the last rendered word (the origin before any), and the used-word set
    holds distinct vocabulary terms. *)
Definition canvas_inv (c : canvas) : Prop :=
  lastTextPosition c = last (pos_list c) (0, 0) /\ NoDup (usedWords c) /\
  incl (usedWords c) (map Some designTerms).

Lemma canvas_inv_init : canvas_inv init.
Proof.
  split; [reflexivity|]. split; [constructor|]. intros a Ha. inversion Ha.
Qed.

Lemma canvas_inv_step (c : canvas) (ev : canvas_event) :
  canvas_inv c -> canvas_event_ok ev -> canvas_inv (canvas_step c ev).
Proof.
  intros [Hl [Hnd Hinc]] Hok.
  destruct (canvas_step_cases c ev) as [[E1 [E2 E3]]|[[E1 [E2 E3]]|[w [E1 [_ [E3 [E4 E5]]]]]]].
  - split; [rewrite E3, E1; exact Hl|]. rewrite E2. auto.
  - split; [rewrite E3, E1; exact Hl|]. rewrite E2. split; [constructor|].
    intros a Ha; inversion Ha.
  - destruct (E5 Hok) as [t [Ht [Hin Hnot]]].
    split; [rewrite E3, E1, last_last; reflexivity|].
    rewrite E4. unfold set_add. rewrite Ht, Hnot. split.
    + apply NoDup_app; [exact Hnd | constructor; [intro H; inversion H|constructor] |].
      intros a Ha Ha'. destruct Ha' as [<-|[]].
      exact (set_has_false_not_in _ _ Hnot Ha).
    + intros a Ha. apply in_app_or in Ha as [Ha|[<-|[]]]; [exact (Hinc a Ha)|].
      apply in_map. exact Hin.
Qed.

Lemma canvas_inv_run (c : canvas) (evs : list canvas_event) :
  canvas_inv c -> Forall canvas_event_ok evs -> canvas_inv (run_canvas c evs).
Proof.
  revert c. induction evs as [|ev evs IH]; intros c Hc Hok; simpl; [exact Hc|].
  inversion Hok; subst. apply IH; [apply canvas_inv_step|]; assumption.
Qed.

Lemma run_canvas_app (c : canvas) (evs1 evs2 : list canvas_event) :
  run_canvas c (evs1 ++ evs2) = run_canvas (run_canvas c evs1) evs2.
Proof. revert c. induction evs1; intro c; simpl; auto. Qed.

End CanvasFacts.

Import CanvasAnimationController.

Module Float64DotFacts.

Import Floats.PrimFloat.
Local Open Scope float_scope.

(** C8 (code bug): in the source's float64 arithmetic the dots do not keep
    approaching the pointer. From the page-load dots at (0, 0), with the
    pointer held at (300, 40), after 329 frames no dot is on the pointer
    (each x is still below 300), yet one more [updateDots] leaves every dot
    exactly where it is: the distance to the pointer is nonzero and does
    not decrease. *)
Theorem updateDots_float_stall :
  let ds := Float64Dots.frames 329 Float64Dots.pointer_300_40
              (Float64Dots.createDots Float64Dots.origin) in
  Float64Dots.updateDots Float64Dots.pointer_300_40 ds = ds /\
  List.length ds = CanvasAnimationController.NUM_DOTS /\
  forallb (fun d => Float64Dots.fdot_x d <? 300) ds = true /\
  forallb (fun d => Float64Dots.fdot_y d <? 40) ds = true.
Proof.
  vm_compute. split; [reflexivity|]. split; [reflexivity|]. split; reflexivity.
Qed.

End Float64DotFacts.

(** C9: along any run of the animation from page load, a frame that places
    a new word places it at Euclidean distance at least 150 from the last
    placed word (from the origin for the first word), and the used-word set
    never holds more terms than the fixed vocabulary. *)
Theorem word_placement_spacing (evs : list canvas_event) (ev : canvas_event)
  (Hok : Forall canvas_event_ok evs) (Hev : canvas_event_ok ev) :
  let c := run_canvas CanvasAnimationController.init evs in
  let c' := canvas_step c ev in
  (forall p, CanvasFacts.pos_list c' = (CanvasFacts.pos_list c ++ [p])%list ->
     150 * 150 <= dist2 p (last (CanvasFacts.pos_list c) (0, 0))) /\
  (List.length (usedWords c') <= List.length CanvasAnimationController.designTerms)%nat.
Proof.
  cbv zeta.
  pose proof (CanvasFacts.canvas_inv_run _ _ CanvasFacts.canvas_inv_init Hok) as Hinv.
  set (c := run_canvas CanvasAnimationController.init evs) in *.
  split.
  - intros p Hp. destruct Hinv as [Hl _].
    destruct (CanvasFacts.canvas_step_cases c ev)
      as [[E1 _]|[[E1 _]|[w [E1 [E2 _]]]]].
    + rewrite E1 in Hp. apply (f_equal (@List.length (Q * Q))) in Hp.
      rewrite length_app in Hp. simpl in Hp. lia.
    + rewrite E1 in Hp. apply (f_equal (@List.length (Q * Q))) in Hp.
      rewrite length_app in Hp. simpl in Hp. lia.
    + rewrite E1 in Hp. apply app_inj_tail in Hp as [_ <-].
      rewrite <- Hl. exact E2.
  - destruct (CanvasFacts.canvas_inv_step c ev Hinv Hev) as [_ [Hnd Hinc]].
    rewrite <- (length_map Some CanvasAnimationController.designTerms).
    apply NoDup_incl_length; assumption.
Qed.

Lemma word_placement_spacing_witness :
  Forall canvas_event_ok (placing_events 3) /\ canvas_event_ok (CFrame placing_draws) /\
  let c := run_canvas CanvasAnimationController.init (placing_events 3) in
  let c' := canvas_step c (CFrame placing_draws) in
  (forall p, CanvasFacts.pos_list c' = (CanvasFacts.pos_list c ++ [p])%list ->
     150 * 150 <= dist2 p (last (CanvasFacts.pos_list c) (0, 0))) /\
  (List.length (usedWords c') <= List.length CanvasAnimationController.designTerms)%nat.
Proof.
  assert (Hd : CanvasAnimationController.draws_ok placing_draws).
  { unfold CanvasAnimationController.draws_ok.
    repeat split; vm_compute; (reflexivity || discriminate). }
  assert (Hf : Forall canvas_event_ok (placing_events 3)).
  { simpl. repeat (apply Forall_cons || apply Forall_nil); simpl; first [exact I | exact Hd]. }
  split; [exact Hf|]. split; [exact Hd|].
  apply word_placement_spacing; [exact Hf | exact Hd].
Defined.

(** C2 (code bug): once every vocabulary term is in the used-word set, the
    frame's guard [usedWords.size < designTerms.length] keeps [addText] from
    running, so the reset in [addText] is never reached: whatever happens
    next, the used-word set stays full and no word is ever placed again. *)
Theorem exhausted_vocabulary_never_resets (c : canvas) (evs : list canvas_event)
  (Hfull : List.length (usedWords c) = List.length CanvasAnimationController.designTerms) :
  usedWords (run_canvas c evs) = usedWords c /\
  CanvasFacts.pos_list (run_canvas c evs) = CanvasFacts.pos_list c.
Proof.
  revert c Hfull. induction evs as [|ev evs IH]; intros c Hfull; simpl; [auto|].
  assert (Hs : usedWords (canvas_step c ev) = usedWords c /\
               CanvasFacts.pos_list (canvas_step c ev) = CanvasFacts.pos_list c).
  { destruct ev as [x y l t | r]; simpl.
    - split; reflexivity.
    - unfold CanvasAnimationController.animateFrame.
      rewrite CanvasFacts.pos_list_drawWords.
      unfold CanvasAnimationController.handleWordGeneration.
      change (usedWords (updateDots c)) with (usedWords c).
      rewrite Hfull, Nat.ltb_irrefl, andb_false_r. split; reflexivity. }
  destruct Hs as [Hu Hp].
  rewrite <- Hu in Hfull.
  destruct (IH (canvas_step c ev) Hfull) as [IH1 IH2].
  rewrite IH1, IH2, Hu, Hp. split; reflexivity.
Qed.

Lemma exhausted_vocabulary_never_resets_witness :
  List.length (usedWords exhausted_canvas) = List.length CanvasAnimationController.designTerms /\
  usedWords (run_canvas exhausted_canvas
               [CMouseMove 5000 100 0 0; CFrame placing_draws;
                CMouseMove 100 900 0 0; CFrame placing_draws])
  = usedWords exhausted_canvas /\
  CanvasFacts.pos_list (run_canvas exhausted_canvas
               [CMouseMove 5000 100 0 0; CFrame placing_draws;
                CMouseMove 100 900 0 0; CFrame placing_draws])
  = CanvasFacts.pos_list exhausted_canvas.
Proof.
  split; [vm_compute; reflexivity|].
  apply exhausted_vocabulary_never_resets. vm_compute. reflexivity.
Defined.

(** ** Parallax *)

Lemma run_scroll_queue_empty (to_number : string -> jsnum) (s : scroll_state)
  (evs : list scroll_event) :
  raf_queue s = [] -> raf_queue (run_scroll to_number s evs) = [].
Proof.
  revert s. induction evs as [|ev evs IH]; intros s Hq; simpl; [exact Hq|].
  apply IH. destruct ev as [y|]; simpl; [exact Hq|].
  unfold run_scroll_steps. destruct (scroll_pending s); simpl; rewrite Hq; reflexivity.
Qed.

(** C4: in every frame after any sequence of scroll-position changes and
    frames, the parallax recomputation runs at most once, however many
    scroll-position changes happened since the previous frame; when it runs,
    each layer's transform becomes [scrollY * depth], the depth being the
    [data-depth] attribute converted to a number, or 0.1 when the attribute
    is absent or empty; a frame without it, and a scroll-position change,
    leave the transforms alone. *)
Theorem parallax_once_per_frame (to_number : string -> jsnum)
  (ls : list (option string)) (evs : list scroll_event) (ev : scroll_event) :
  let s := run_scroll to_number (scroll_init ls) evs in
  let r := scroll_step to_number s ev in
  (snd r <= 1)%nat /\
  (snd r = 1%nat ->
     transforms (fst r)
     = map (fun a => Some (Translate3dY (js_mul (JFin (scrollY (fst r)))
                                                (depth_factor to_number a))))
           (layers (fst r))) /\
  (snd r = 0%nat -> transforms (fst r) = transforms s).
Proof.
  cbv zeta.
  pose proof (run_scroll_queue_empty to_number (scroll_init ls) evs eq_refl) as Hq.
  set (s := run_scroll to_number (scroll_init ls) evs) in *.
  destruct ev as [y|]; simpl.
  - split; [lia|]. split; [discriminate|reflexivity].
  - unfold run_scroll_steps.
    destruct (scroll_pending s); simpl; rewrite Hq; simpl.
    + split; [lia|]. split; [reflexivity|discriminate].
    + split; [lia|]. split; [discriminate|reflexivity].
Qed.

(** ** Project feeds *)

Definition container_of {A} (o : outcome A) : option (list block) :=
  match o with Done _ w | Thrown _ w | Pending w => container w end.

(** A step that never removes the container element. *)
Definition keeps_container {A} (m : M A) : Prop :=
  forall w, container w <> None -> container_of (m w) <> None.

Lemma kc_ret {A} (a : A) : keeps_container (ret a).
Proof. intros w H. exact H. Qed.

Lemma kc_throw {A} (e : exn) : keeps_container (@throw A e).
Proof. intros w H. exact H. Qed.

Lemma kc_bind {A B} (m : M A) (k : A -> M B) :
  keeps_container m -> (forall a, keeps_container (k a)) -> keeps_container (bind m k).
Proof.
  intros Hm Hk w H. unfold bind. specialize (Hm w H).
  destruct (m w) as [a w'|e w'|w']; simpl in *; auto. apply Hk. exact Hm.
Qed.

Lemma kc_try {A} (m : M A) (h : exn -> M A) :
  keeps_container m -> (forall e, keeps_container (h e)) -> keeps_container (try_catch m h).
Proof.
  intros Hm Hh w H. unfold try_catch. specialize (Hm w H).
  destruct (m w) as [a w'|e w'|w']; simpl in *; auto. apply Hh. exact Hm.
Qed.

Lemma kc_set_container (c : list block) : keeps_container (set_container c).
Proof.
  intros w H. unfold set_container. destruct (container w); simpl; congruence.
Qed.

Lemma kc_fetch : keeps_container fetch.
Proof.
  intros w H. unfold fetch. destruct (network w) as [|[m|r] rest]; simpl; exact H.
Qed.

Lemma kc_response_json (r : response) : keeps_container (response_json r).
Proof. unfold response_json. destruct (body r); [apply kc_ret|apply kc_throw]. Qed.

Lemma kc_get_prop (v : option json) (k : string) : keeps_container (get_prop v k).
Proof.
  unfold get_prop. destruct v as [[]|]; first [apply kc_ret | apply kc_throw].
Qed.

Lemma kc_iterate (v : option json) : keeps_container (iterate v).
Proof.
  unfold iterate. destruct v as [[]|]; first [apply kc_ret | apply kc_throw].
Qed.

Lemma kc_container_exists : keeps_container container_exists.
Proof. intros w H. exact H. Qed.

Lemma kc_mapM {A B} (f : A -> M B) (l : list A) :
  (forall x, keeps_container (f x)) -> keeps_container (mapM f l).
Proof.
  intro Hf. induction l as [|x l IH]; simpl.
  - apply kc_ret.
  - apply kc_bind; [apply Hf|]. intro y. apply kc_bind; [exact IH|]. intro. apply kc_ret.
Qed.

Create HintDb keeps.
#[local] Hint Resolve kc_ret kc_throw kc_set_container kc_fetch kc_response_json
  kc_get_prop kc_iterate kc_container_exists : keeps.

Ltac keeps_step :=
  first [ solve [eauto with keeps]
        | apply kc_bind | apply kc_try | apply kc_mapM
        | match goal with
          | |- keeps_container (match ?x with _ => _ end) => destruct x
          | |- forall _, _ => intro
          end ].

Lemma kc_insert_file (pd : string -> jsnum) (x : json) (l : list json) :
  keeps_container (FigmaFeed.insert_file pd x l).
Proof.
  induction l as [|y l IH]; simpl; unfold FigmaFeed.compare_files; repeat keeps_step.
Qed.

Lemma kc_sort_files_aux (pd : string -> jsnum) (l acc : list json) :
  keeps_container (FigmaFeed.sort_files_aux pd l acc).
Proof.
  revert acc. induction l as [|x l IH]; intro acc; simpl.
  - apply kc_ret.
  - apply kc_bind; [apply kc_insert_file|]. intro. apply IH.
Qed.

Lemma kc_collect_files (ps acc : list json) :
  keeps_container (FigmaFeed.collect_files ps acc).
Proof.
  revert acc. induction ps as [|p ps IH]; intro acc; simpl.
  - apply kc_ret.
  - unfold FigmaFeed.getFigmaProjectFiles. repeat keeps_step.
Qed.

#[local] Hint Resolve kc_insert_file kc_sort_files_aux kc_collect_files : keeps.

(** A [try] whose [catch] only writes the container cannot let an error
    escape while the container exists. *)
Lemma try_set_no_escape (m : M unit) (f : exn -> list block) (w : world) :
  keeps_container m -> container w <> None ->
  escapes (try_catch m (fun e => set_container (f e)) w) = false.
Proof.
  intros Hm Hw. unfold try_catch. specialize (Hm w Hw).
  destruct (m w) as [a w'|e w'|w']; simpl in *; try reflexivity.
  unfold set_container. destruct (container w'); [reflexivity|congruence].
Qed.

Lemma kc_github_body :
  keeps_container
    (set_container [Spinner] ;;;
     response <- fetch ;;
     if negb (response_ok response)
     then throw (Exn ("GitHub API error: " ++ string_of_Z (status response)))
     else
       repos <- response_json response ;;
       match repos with
       | JArr items => cards <- mapM GitHubFeed.render_repo items ;; set_container cards
       | _ => set_container [ErrorDiv GitHubFeed.invalid_data_message]
       end).
Proof. unfold GitHubFeed.render_repo. repeat keeps_step. Qed.

Lemma kc_figma_body (pd : string -> jsnum) :
  keeps_container
    (set_container [Spinner] ;;;
     projectsResponse <- fetch ;;
     projectsData <- response_json projectsResponse ;;
     projects <- get_prop (Some projectsData) "projects" ;;
     projectList <- iterate projects ;;
     allFiles <- FigmaFeed.collect_files projectList [] ;;
     recentFiles <- FigmaFeed.sort_files pd allFiles ;;
     FigmaFeed.renderFigmaProjects (firstn 5 recentFiles)).
Proof.
  unfold FigmaFeed.sort_files, FigmaFeed.renderFigmaProjects, FigmaFeed.renderFigmaProject.
  repeat keeps_step.
Qed.

Lemma github_no_escape (w : world) :
  container w <> None -> escapes (GitHubFeed.fetchGitHubRepos w) = false.
Proof.
  intro H. unfold GitHubFeed.fetchGitHubRepos.
  apply (try_set_no_escape _ (fun e => [ErrorDiv ("Error loading projects: " ++ exn_message e)])).
  - exact kc_github_body.
  - exact H.
Qed.

Lemma figma_no_escape (pd : string -> jsnum) (w : world) :
  escapes (FigmaFeed.fetchRecentFigmaFiles pd w) = false.
Proof.
  unfold FigmaFeed.fetchRecentFigmaFiles, bind at 1, container_exists.
  destruct (container w) eqn:E; simpl; [|reflexivity].
  apply (try_set_no_escape _ (fun e => [ErrorDiv (exn_message e)])).
  - exact (kc_figma_body pd).
  - rewrite E. discriminate.
Qed.

Lemma github_failure_error_div (c0 : list block) (o : fetch_outcome) (rest : list fetch_outcome) :
  github_fails o = true ->
  exists t, GitHubFeed.fetchGitHubRepos (mk_world (Some c0) (o :: rest))
            = Done tt (mk_world (Some [ErrorDiv t]) rest).
Proof.
  intro H. destruct o as [msg|r]; [eexists; reflexivity|].
  simpl in H. destruct (response_ok r) eqn:Eok; simpl in H.
  - destruct (body r) as [[]|] eqn:Eb; try discriminate H;
      eexists; unfold GitHubFeed.fetchGitHubRepos, try_catch, bind, set_container,
      fetch, response_json; simpl; rewrite Eok, ?Eb; reflexivity.
  - eexists; unfold GitHubFeed.fetchGitHubRepos, try_catch, bind, set_container, fetch;
      simpl; rewrite Eok; reflexivity.
Qed.

Lemma figma_team_failure_error_div (pd : string -> jsnum) (c0 : list block)
    (o : fetch_outcome) (rest : list fetch_outcome) :
  team_fails o = true ->
  exists t, FigmaFeed.fetchRecentFigmaFiles pd (mk_world (Some c0) (o :: rest))
            = Done tt (mk_world (Some [ErrorDiv t]) rest).
Proof.
  intro H. destruct o as [msg|r]; [eexists; reflexivity|].
  simpl in H. destruct (body r) as [j|] eqn:Eb.
  - destruct j as [| | | | |fs]; simpl in H;
      try (eexists; unfold FigmaFeed.fetchRecentFigmaFiles, try_catch, bind, set_container,
             fetch, response_json, container_exists; simpl; rewrite Eb; reflexivity).
    destruct (lookup_field "projects" fs) as [[]|] eqn:El; try discriminate H;
      eexists; unfold FigmaFeed.fetchRecentFigmaFiles, try_catch, bind, set_container,
        fetch, response_json, container_exists, get_prop; simpl; rewrite Eb; simpl;
      rewrite El; reflexivity.
  - eexists; unfold FigmaFeed.fetchRecentFigmaFiles, try_catch, bind, set_container,
      fetch, response_json, container_exists; simpl; rewrite Eb; reflexivity.
Qed.

(** C6: on the repository feed, a 2xx response whose body is the empty
    array leaves zero cards and no error in the container; a 404 response
    leaves exactly one error block, whose text contains the message built
    from the status. *)
Theorem github_empty_array_and_404 :
  (forall (st : Z) (c0 : list block) (rest : list fetch_outcome),
     (200 <= st <= 299)%Z ->
     GitHubFeed.fetchGitHubRepos
       (mk_world (Some c0) (FResolve (mk_response st (Some (JArr []))) :: rest))
     = Done tt (mk_world (Some []) rest)) /\
  (forall (b : option json) (c0 : list block) (rest : list fetch_outcome),
     exists t,
       GitHubFeed.fetchGitHubRepos (mk_world (Some c0) (FResolve (mk_response 404 b) :: rest))
       = Done tt (mk_world (Some [ErrorDiv t]) rest) /\
       string_contains t ("GitHub API error: " ++ string_of_Z 404) = true).
Proof.
  split.
  - intros st c0 rest Hst.
    assert (Hok : response_ok (mk_response st (Some (JArr []))) = true).
    { unfold response_ok; simpl. apply andb_true_intro; split; apply Z.leb_le; lia. }
    unfold GitHubFeed.fetchGitHubRepos, try_catch, bind, set_container, fetch, response_json.
    simpl. rewrite Hok. reflexivity.
  - intros b c0 rest. eexists. split; reflexivity.
Qed.

Lemma github_empty_array_and_404_witness :
  GitHubFeed.fetchGitHubRepos
    (mk_world (Some [Spinner]) [FResolve (mk_response 200 (Some (JArr [])))])
  = Done tt (mk_world (Some []) []).
Proof.
  apply (proj1 github_empty_array_and_404 200%Z [Spinner] []). lia.
Defined.

(** C3 (counterexample): the team request succeeds and lists one project,
    whose file-list request is rejected; the design feed ends with an empty
    container, and no error message is shown. *)
Lemma figma_file_list_rejection_hidden :
  FigmaFeed.fetchRecentFigmaFiles iso_digits_time
    (mk_world (Some [])
       [FResolve (mk_response 200 (Some (team_body [JObj [("id"%string, JNum 1)]])));
        FReject "Failed to fetch"])
  = Done tt (mk_world (Some []) []).
Proof. reflexivity. Qed.

(** C3 (amended): no failure escapes the design feed, nor the repository
    feed once its container exists (without it, the repository feed's own
    [catch] throws). The repository feed ends with one inline error block
    on a rejected fetch, a non-2xx status, a body that is not JSON or a body
    that is not an array; the design feed does so when the team request is
    rejected, its body is not JSON or it has no iterable [projects] list. A
    rejected, unparseable or null file-list response is replaced by an empty
    file list inside [getFigmaProjectFiles], and the design feed never checks
    a status code. *)
Theorem feed_failures_handled :
  (forall w : world, container w <> None -> escapes (GitHubFeed.fetchGitHubRepos w) = false) /\
  (forall net : list fetch_outcome,
     escapes (GitHubFeed.fetchGitHubRepos (mk_world None net)) = true) /\
  (forall (pd : string -> jsnum) (w : world),
     escapes (FigmaFeed.fetchRecentFigmaFiles pd w) = false) /\
  (forall (c0 : list block) (o : fetch_outcome) (rest : list fetch_outcome),
     github_fails o = true ->
     exists t, GitHubFeed.fetchGitHubRepos (mk_world (Some c0) (o :: rest))
               = Done tt (mk_world (Some [ErrorDiv t]) rest)) /\
  (forall (pd : string -> jsnum) (c0 : list block) (o : fetch_outcome)
          (rest : list fetch_outcome),
     team_fails o = true ->
     exists t, FigmaFeed.fetchRecentFigmaFiles pd (mk_world (Some c0) (o :: rest))
               = Done tt (mk_world (Some [ErrorDiv t]) rest)) /\
  (forall (pid : option json) (c : option (list block)) (msg : string)
          (rest : list fetch_outcome),
     FigmaFeed.getFigmaProjectFiles pid (mk_world c (FReject msg :: rest))
     = Done (Some (JArr [])) (mk_world c rest)) /\
  (forall (pid : option json) (c : option (list block)) (r : response)
          (rest : list fetch_outcome),
     body r = None \/ body r = Some JNull ->
     FigmaFeed.getFigmaProjectFiles pid (mk_world c (FResolve r :: rest))
     = Done (Some (JArr [])) (mk_world c rest)) /\
  (forall (pd : string -> jsnum) (c0 : list block) (st : Z) (rest : list fetch_outcome),
     FigmaFeed.fetchRecentFigmaFiles pd
       (mk_world (Some c0) (FResolve (mk_response st (Some (team_body []))) :: rest))
     = Done tt (mk_world (Some []) rest)).
Proof.
  split; [exact github_no_escape|].
  split; [intros net; reflexivity|].
  split; [exact figma_no_escape|].
  split; [exact github_failure_error_div|].
  split; [exact figma_team_failure_error_div|].
  split; [intros; reflexivity|].
  split.
  - intros pid c r rest [Hb|Hb];
      unfold FigmaFeed.getFigmaProjectFiles, try_catch, bind, fetch, response_json;
      simpl; rewrite Hb; reflexivity.
  - intros; reflexivity.
Qed.

Lemma feed_failures_handled_witness :
  escapes (GitHubFeed.fetchGitHubRepos (mk_world (Some []) [FReject "Failed to fetch"])) = false /\
  (exists t, FigmaFeed.fetchRecentFigmaFiles iso_digits_time
               (mk_world (Some []) [FResolve (mk_response 403 (Some (JObj [])))])
             = Done tt (mk_world (Some [ErrorDiv t]) [])) /\
  FigmaFeed.getFigmaProjectFiles None (mk_world (Some []) [FResolve (mk_response 200 None)])
  = Done (Some (JArr [])) (mk_world (Some []) []).
Proof.
  destruct feed_failures_handled as (Ha & _ & _ & _ & He & _ & Hg & _).
  split; [apply Ha; simpl; discriminate|].
  split; [apply He; reflexivity|].
  apply Hg. left. reflexivity.
Defined.

Lemma strongly_sorted_prefix {A} (R : A -> A -> Prop) (l1 l2 : list A) :
  StronglySorted R (l1 ++ l2) -> StronglySorted R l1.
Proof.
  induction l1 as [|a l1 IH]; simpl; intro H; [constructor|].
  inversion H as [|? ? Hs Ha]; subst. constructor; [exact (IH Hs)|].
  apply Forall_forall. intros b Hb. apply (proj1 (Forall_forall _ _) Ha).
  apply in_or_app. left. exact Hb.
Qed.
Lemma bind_step {A B} (m : M A) (k : A -> M B) (w w' : world) (a : A) (r : outcome B) :
  m w = Done a w' -> k a w' = r -> bind m k w = r.
Proof. intros H1 H2. unfold bind. rewrite H1. exact H2. Qed.
Lemma try_done {A} (m : M A) (h : exn -> M A) (w w' : world) (a : A) :
  m w = Done a w' -> try_catch m h w = Done a w'.
Proof. intro H. unfold try_catch. rewrite H. reflexivity. Qed.

Section DesignFileOrder.

Variable pd : string -> jsnum.

Let R (a b : figma_file) : Prop := file_time pd b <= file_time pd a.

Lemma Qltb_sub_pos (a b : Q) : Qltb 0 (a - b) = Qltb b a.
Proof.
  destruct (Qltb b a) eqn:E.
  - apply Qltb_true in E. apply Qltb_true. lra.
  - apply Qltb_false in E. apply Qltb_false. lra.
Qed.

Lemma valid_file_time (f : figma_file) :
  valid_time pd f -> pd (f_last_modified f) = JFin (file_time pd f).
Proof. intros [q Hq]. unfold file_time. rewrite Hq. reflexivity. Qed.

Lemma ins_desc_perm (x : figma_file) (l : list figma_file) :
  Permutation (ins_desc pd x l) (x :: l).
Proof.
  induction l as [|y l IH]; simpl; [reflexivity|].
  destruct (Qltb (file_time pd y) (file_time pd x)); [reflexivity|].
  rewrite IH. apply perm_swap.
Qed.

Lemma sort_desc_aux_perm (l acc : list figma_file) :
  Permutation (sort_desc_aux pd l acc) (l ++ acc).
Proof.
  revert acc. induction l as [|x l IH]; intro acc; simpl; [reflexivity|].
  rewrite IH, ins_desc_perm. apply Permutation_sym, Permutation_middle.
Qed.

Lemma ins_desc_sorted (x : figma_file) (l : list figma_file) :
  StronglySorted R l -> StronglySorted R (ins_desc pd x l).
Proof.
  induction 1 as [|y l Hs IH Hy]; simpl.
  - repeat constructor.
  - destruct (Qltb (file_time pd y) (file_time pd x)) eqn:E.
    + apply Qltb_true in E. constructor; [constructor; assumption|].
      constructor; [unfold R; lra|].
      apply Forall_forall. intros z Hz. pose proof (proj1 (Forall_forall _ _) Hy z Hz).
      unfold R in *. lra.
    + apply Qltb_false in E. constructor; [exact IH|].
      apply Forall_forall. intros z Hz.
      apply (Permutation_in z (ins_desc_perm x l)) in Hz.
      destruct Hz as [<-|Hz]; [exact E|]. exact (proj1 (Forall_forall _ _) Hy z Hz).
Qed.

Lemma sort_desc_aux_sorted (l acc : list figma_file) :
  StronglySorted R acc -> StronglySorted R (sort_desc_aux pd l acc).
Proof.
  revert acc. induction l as [|x l IH]; intros acc H; simpl; [exact H|].
  apply IH, ins_desc_sorted, H.
Qed.

Lemma strongly_sorted_app (l1 l2 : list figma_file) :
  StronglySorted R (l1 ++ l2) -> Forall (fun a => Forall (R a) l2) l1.
Proof.
  induction l1 as [|a l1 IH]; simpl; intro H; [constructor|].
  inversion H as [|? ? Hs Ha]; subst. constructor; [|exact (IH Hs)].
  apply Forall_forall. intros b Hb. apply (proj1 (Forall_forall _ _) Ha).
  apply in_or_app. right. exact Hb.
Qed.

Lemma insert_file_json (x : figma_file) (l : list figma_file) (w : world) :
  valid_time pd x -> Forall (valid_time pd) l ->
  FigmaFeed.insert_file pd (file_json x) (map file_json l) w
  = Done (map file_json (ins_desc pd x l)) w.
Proof.
  intros Hx Hl. induction Hl as [|y l Hy Hl IH]; [reflexivity|].
  cbn [map FigmaFeed.insert_file ins_desc].
  unfold bind at 1, FigmaFeed.compare_files, bind, get_prop, ret. cbn.
  rewrite (valid_file_time x Hx), (valid_file_time y Hy). cbn.
  rewrite Qltb_sub_pos.
  destruct (Qltb (file_time pd y) (file_time pd x)); [reflexivity|].
  fold (@bind (list json) (list json)). unfold bind. rewrite IH. reflexivity.
Qed.

Lemma sort_files_aux_json (l acc : list figma_file) (w : world) :
  Forall (valid_time pd) l -> Forall (valid_time pd) acc ->
  FigmaFeed.sort_files_aux pd (map file_json l) (map file_json acc) w
  = Done (map file_json (sort_desc_aux pd l acc)) w.
Proof.
  intros Hl. revert acc. induction Hl as [|x l Hx Hl IH]; intros acc Hacc; [reflexivity|].
  cbn [map FigmaFeed.sort_files_aux sort_desc_aux]. unfold bind at 1.
  rewrite (insert_file_json x acc w Hx Hacc). apply IH.
  apply Forall_forall. intros z Hz.
  apply (Permutation_in z (ins_desc_perm x acc)) in Hz.
  destruct Hz as [<-|Hz]; [exact Hx|]. exact (proj1 (Forall_forall _ _) Hacc z Hz).
Qed.

End DesignFileOrder.

Lemma render_figma_files (l : list figma_file) (w : world) :
  mapM FigmaFeed.renderFigmaProject (map file_json l) w
  = Done (map (fun f => FigmaCard (file_json f)) l) w.
Proof.
  induction l as [|f l IH]; [reflexivity|].
  cbn [map mapM]. unfold bind at 1.
  assert (E : FigmaFeed.renderFigmaProject (file_json f) w = Done (FigmaCard (file_json f)) w)
    by reflexivity.
  rewrite E. unfold bind. rewrite IH. reflexivity.
Qed.
Lemma collect_two_projects (pf1 pf2 : list (string * json)) (st1 st2 : Z) (fs1 fs2 : list figma_file) (c : option (list block))
    (rest : list fetch_outcome) :
  FigmaFeed.collect_files [JObj pf1; JObj pf2] []
    (mk_world c ([FResolve (mk_response st1 (Some (files_body fs1)));
           FResolve (mk_response st2 (Some (files_body fs2)))] ++ rest))
  = Done (map file_json (fs1 ++ fs2)) (mk_world c rest).
Proof.
  rewrite map_app. reflexivity.
Qed.
(** C7: when the team lists two projects whose file lists hold seven files
    in all, each with a valid [last_modified] date, the design feed renders
    five of them, newest first, and none of the two it drops is newer than
    one it keeps. *)
Theorem recent_design_files_top5 (pd : string -> jsnum) (pf1 pf2 : list (string * json))
    (st0 st1 st2 : Z) (fs1 fs2 : list figma_file) (c0 : list block)
    (rest : list fetch_outcome) :
  (List.length fs1 + List.length fs2 = 7)%nat ->
  Forall (valid_time pd) (fs1 ++ fs2) ->
  exists top others : list figma_file,
    FigmaFeed.fetchRecentFigmaFiles pd
      (mk_world (Some c0)
         ([FResolve (mk_response st0 (Some (team_body [JObj pf1; JObj pf2])));
           FResolve (mk_response st1 (Some (files_body fs1)));
           FResolve (mk_response st2 (Some (files_body fs2)))] ++ rest))
    = Done tt (mk_world (Some (map (fun f => FigmaCard (file_json f)) top)) rest) /\
    List.length top = 5%nat /\
    Permutation (top ++ others) (fs1 ++ fs2) /\
    Sorted (fun a b => file_time pd b <= file_time pd a) top /\
    Forall (fun a => Forall (fun b => file_time pd b <= file_time pd a) others) top.
Proof.
  intros H7 Hv.
  set (s := sort_desc_aux pd (fs1 ++ fs2) []).
  assert (Hperm : Permutation s (fs1 ++ fs2)).
  { unfold s. rewrite sort_desc_aux_perm, app_nil_r. reflexivity. }
  assert (Hsort : StronglySorted (fun a b => file_time pd b <= file_time pd a) s).
  { apply sort_desc_aux_sorted. constructor. }
  exists (firstn 5 s), (skipn 5 s).
  rewrite (firstn_skipn 5 s). split; [|split; [|split; [exact Hperm|split]]].
  - unfold FigmaFeed.fetchRecentFigmaFiles, container_exists, bind at 1. cbn -[FigmaFeed.collect_files FigmaFeed.sort_files firstn].
    apply try_done.
    do 5 (eapply bind_step; [reflexivity|]; cbn beta).
    eapply bind_step; [apply collect_two_projects|]. cbn beta.
    eapply bind_step; [exact (sort_files_aux_json pd (fs1 ++ fs2) [] _ Hv (Forall_nil _))|].
    cbn beta. fold s. rewrite firstn_map. unfold FigmaFeed.renderFigmaProjects.
    eapply bind_step; [reflexivity|]. cbn beta iota.
    eapply bind_step; [apply render_figma_files|]. reflexivity.
  - rewrite length_firstn, (Permutation_length Hperm), length_app, H7. reflexivity.
  - apply StronglySorted_Sorted. rewrite <- (firstn_skipn 5 s) in Hsort.
    exact (strongly_sorted_prefix _ _ _ Hsort).
  - rewrite <- (firstn_skipn 5 s) in Hsort. apply strongly_sorted_app in Hsort.
    exact Hsort.
Qed.

Lemma recent_design_files_top5_witness :
  exists top others : list figma_file,
    FigmaFeed.fetchRecentFigmaFiles iso_digits_time
      (mk_world (Some nil)
         ([FResolve (mk_response 200 (Some (team_body [JObj nil; JObj nil])));
           FResolve (mk_response 200 (Some (files_body sample_files1)));
           FResolve (mk_response 200 (Some (files_body sample_files2)))] ++ nil))
    = Done tt (mk_world (Some (map (fun f => FigmaCard (file_json f)) top)) []) /\
    List.length top = 5%nat.
Proof.
  assert (Hv : Forall (valid_time iso_digits_time) (sample_files1 ++ sample_files2)).
  { unfold sample_files1, sample_files2. simpl.
    repeat (apply Forall_cons; [eexists; reflexivity|]). apply Forall_nil. }
  destruct (recent_design_files_top5 iso_digits_time nil nil 200%Z 200%Z 200%Z
              sample_files1 sample_files2 nil nil eq_refl Hv)
    as (top & others & H1 & H2 & _).
  exists top, others. split; assumption.
Defined.

(* ================================================================== *)
(** ** Further properties of the page scripts *)
(* ================================================================== *)
(** ** Split pane: extra facts *)

Lemma dispatch_drag_flags (env : layout) (p : pane) (ev : pane_event) :
  let p' := fst (dispatch env p ev) in
  isDragging p' = sig_default (isDragging p) (fun b => b) (drag_signal ev) /\
  body_cursor p' = sig_default (body_cursor p)
                     (fun b => if b then SplitPaneController.getCursorStyle env else "default"%string)
                     (drag_signal ev) /\
  touch_isDragging p' = sig_default (touch_isDragging p) (fun b => b) (touch_signal ev) /\
  divider_active p' = sig_default (divider_active p) (fun b => b) (touch_signal ev).
Proof.
  cbv zeta. destruct ev as [[] x y|[] x y| |[] x y|x y| |]; simpl;
    unfold SplitPaneController.handleDragMove, TouchCompanion.on_touchmove,
      SplitPaneController.handleWindowResize;
    repeat match goal with
           | |- context [if ?b then _ else _] => destruct b
           end; simpl; auto.
Qed.

(** X1: after any run of split-pane events, the controller's [isDragging] and
    the body cursor are set by the last mouse-down or touch-start on the
    divider (dragging, cursor by viewport) or the last mouse-up or
    touch-end (not dragging, cursor [default]), and keep their old values
    when there is none; the touch companion's flag and the divider's
    [active] class follow the last touch-start on the divider or
    touch-end in the same way. *)
Lemma run_pane_drag_flags (env : layout) (p : pane) (evs : list pane_event) :
  let p' := run_pane env p evs in
  isDragging p' = sig_default (isDragging p) (fun b => b) (last_signal drag_signal evs) /\
  body_cursor p' = sig_default (body_cursor p)
                     (fun b => if b then SplitPaneController.getCursorStyle env else "default"%string)
                     (last_signal drag_signal evs) /\
  touch_isDragging p' = sig_default (touch_isDragging p) (fun b => b) (last_signal touch_signal evs) /\
  divider_active p' = sig_default (divider_active p) (fun b => b) (last_signal touch_signal evs).
Proof.
  cbv zeta. revert p. induction evs as [|ev evs IH]; intro p; simpl; [auto|].
  destruct (IH (fst (dispatch env p ev))) as (H1 & H2 & H3 & H4).
  destruct (dispatch_drag_flags env p ev) as (E1 & E2 & E3 & E4).
  rewrite H1, H2, H3, H4.
  destruct (last_signal drag_signal evs), (last_signal touch_signal evs); simpl;
    rewrite ?E1, ?E2, ?E3, ?E4; auto.
Qed.

(** X2: while neither the controller nor the touch companion is dragging,
    mouse moves, touch moves and presses off the divider leave the whole
    split-pane state unchanged. *)
Lemma idle_pointer_moves (env : layout) (p : pane) (evs : list pane_event) :
  isDragging p = false -> touch_isDragging p = false ->
  forallb is_pointer_move evs = true ->
  run_pane env p evs = p.
Proof.
  intros Hd Ht. induction evs as [|ev evs IH]; intro Hm; [reflexivity|].
  simpl in Hm. apply andb_true_iff in Hm as [Hev Hm].
  assert (Hs : fst (dispatch env p ev) = p).
  { destruct ev as [[] x y|[] x y| |[] x y|x y| |]; simpl in Hev; try discriminate Hev; simpl;
      unfold SplitPaneController.handleDragMove, TouchCompanion.on_touchmove;
      rewrite ?Ht; simpl; rewrite ?Hd; simpl; auto. }
  simpl. rewrite Hs. exact (IH Hm).
Qed.

(** X3: a window resize keeps both drag flags and is idempotent; on a
    desktop viewport it keeps the section widths and sets both heights to
    100%, on a narrower one it sets each section to width 100%, height
    50vh and [overflowY] [auto]. *)
Lemma window_resize_layout (env : layout) (p : pane) :
  let p' := fst (dispatch env p WindowResize) in
  fst (dispatch env p' WindowResize) = p' /\
  isDragging p' = isDragging p /\ touch_isDragging p' = touch_isDragging p /\
  (SplitPaneController.isDesktopViewport env = true ->
     s_width (primary p') = s_width (primary p) /\ s_width (secondary p') = s_width (secondary p) /\
     s_height (primary p') = Some (Pct (JFin 100)) /\ s_height (secondary p') = Some (Pct (JFin 100))) /\
  (SplitPaneController.isDesktopViewport env = false ->
     primary p' = mk_style (Some (Pct (JFin 100))) (Some (Vh (JFin 50))) (Some "auto"%string) /\
     secondary p' = mk_style (Some (Pct (JFin 100))) (Some (Vh (JFin 50))) (Some "auto"%string)).
Proof.
  cbv zeta. simpl. unfold SplitPaneController.handleWindowResize.
  destruct (SplitPaneController.isDesktopViewport env) eqn:E; simpl.
  - split; [reflexivity|]. repeat split; try reflexivity; discriminate.
  - split; [reflexivity|]. repeat split; try reflexivity; discriminate.
Qed.


(** ** Canvas: extra facts *)

Lemma word_evolves_refl (w : word) : word_evolves w w.
Proof. repeat split; try reflexivity. apply Qle_refl. Qed.

Lemma word_evolves_trans (w1 w2 w3 : word) :
  word_evolves w1 w2 -> word_evolves w2 w3 -> word_evolves w1 w3.
Proof.
  intros (A1 & B1 & C1 & D1 & E1) (A2 & B2 & C2 & D2 & E2).
  split; [congruence|]. split; [congruence|]. split; [congruence|].
  split; [eapply Qle_trans; eassumption|].
  intro H. rewrite E2; [exact (E1 H)|]. rewrite (E1 H). exact H.
Qed.

Lemma fade_word_evolves (w : word) : word_evolves w (fade_word w).
Proof.
  unfold fade_word. destruct (Qltb (w_alpha w) 1) eqn:E; [|apply word_evolves_refl].
  apply Qltb_true in E. repeat split; simpl; try reflexivity; [lra|]. intro; lra.
Qed.



Lemma fade_word_alpha_ok (w : word) : alpha_ok w -> alpha_ok (fade_word w).
Proof.
  unfold fade_word, alpha_ok. intros [H0 H1].
  destruct (Qltb (w_alpha w) 1) eqn:E; [|split; assumption].
  apply Qltb_true in E. simpl. split; lra.
Qed.

(** What a frame's word generation does to the word list. *)
Lemma handleWordGeneration_words (c : canvas) (r : draws) :
  renderedWords (handleWordGeneration c r) = renderedWords c \/
  exists w, renderedWords (handleWordGeneration c r) = renderedWords c ++ [w] /\ w_alpha w = 0.
Proof.
  unfold handleWordGeneration.
  destruct (_ && _); [|left; reflexivity].
  unfold addText.
  destruct (Qltb _ _); [left; reflexivity|].
  destruct (filter _ _); [left; reflexivity|].
  right. eexists. split; reflexivity.
Qed.

Lemma canvas_step_words (c : canvas) (ev : canvas_event) :
  (forall i w, nth_error (renderedWords c) i = Some w ->
     exists w', nth_error (renderedWords (canvas_step c ev)) i = Some w' /\ word_evolves w w') /\
  (Forall alpha_ok (renderedWords c) -> Forall alpha_ok (renderedWords (canvas_step c ev))).
Proof.
  destruct ev as [x y l t | r]; simpl.
  - split; [|auto]. intros i w H. exists w. split; [exact H|apply word_evolves_refl].
  - unfold animateFrame, drawWords. simpl.
    assert (Hu : renderedWords (updateDots c) = renderedWords c) by reflexivity.
    destruct (handleWordGeneration_words (updateDots c) r) as [E|[w0 [E Ha]]];
      rewrite E, Hu.
    + split.
      * intros i w H. exists (fade_word w). split; [rewrite nth_error_map, H; reflexivity|].
        apply fade_word_evolves.
      * intro H. apply Forall_map. eapply Forall_impl; [|exact H]. apply fade_word_alpha_ok.
    + split.
      * intros i w H. exists (fade_word w). split; [|apply fade_word_evolves].
        rewrite nth_error_map, nth_error_app1; [rewrite H; reflexivity|].
        apply nth_error_Some. congruence.
      * intro H. apply Forall_map. eapply Forall_impl; [apply fade_word_alpha_ok|].
        apply Forall_app. split; [exact H|]. constructor; [|constructor].
        unfold alpha_ok. rewrite Ha. split; [apply Qle_refl|reflexivity].
Qed.

(** X5: on the canvas, a word once drawn stays at the same index with the
    same text, position and rotation; its opacity never decreases and no
    longer changes once it has reached 1; every word's opacity stays in
    [0, 21/20). *)
Theorem rendered_words_persist (evs1 evs2 : list canvas_event) :
  let c1 := run_canvas init evs1 in
  let c2 := run_canvas c1 evs2 in
  (forall i w, nth_error (renderedWords c1) i = Some w ->
     exists w', nth_error (renderedWords c2) i = Some w' /\ word_evolves w w') /\
  Forall alpha_ok (renderedWords c2).
Proof.
  cbv zeta.
  assert (Hgen : forall c evs,
    (forall i w, nth_error (renderedWords c) i = Some w ->
       exists w', nth_error (renderedWords (run_canvas c evs)) i = Some w' /\ word_evolves w w') /\
    (Forall alpha_ok (renderedWords c) -> Forall alpha_ok (renderedWords (run_canvas c evs)))).
  { intros c evs. revert c. induction evs as [|ev evs IH]; intro c; simpl.
    - split; [|auto]. intros i w H. exists w. split; [exact H|apply word_evolves_refl].
    - destruct (canvas_step_words c ev) as [S1 S2].
      destruct (IH (canvas_step c ev)) as [I1 I2]. split; [|auto].
      intros i w H. destruct (S1 i w H) as [w1 [H1 E1]].
      destruct (I1 i w1 H1) as [w2 [H2 E2]]. exists w2. split; [exact H2|].
      eapply word_evolves_trans; eassumption. }
  split; [apply Hgen|].
  rewrite <- CanvasFacts.run_canvas_app. apply Hgen. constructor.
Qed.

Lemma opt_string_eqb_true (x y : option string) : opt_string_eqb x y = true -> x = y.
Proof.
  destruct x as [a|], y as [b|]; simpl; try discriminate; [|reflexivity].
  intro H. apply String.eqb_eq in H. congruence.
Qed.

Lemma designTerms_NoDup : NoDup (map Some designTerms).
Proof.
  unfold designTerms. simpl.
  repeat constructor; simpl; intro H; repeat destruct H as [H|H]; discriminate H || exact H.
Qed.

(** While the used-word set is a proper subset of the vocabulary, some term
    is still available. *)
Lemma available_terms_nonempty (c : canvas) :
  CanvasFacts.canvas_inv c -> (List.length (usedWords c) < List.length designTerms)%nat ->
  filter (fun term => negb (set_has (usedWords c) (Some term))) designTerms <> [].
Proof.
  intros (_ & Hnd & _) Hlt Hf.
  assert (Hinc : incl (map Some designTerms) (usedWords c)).
  { intros a Ha. apply in_map_iff in Ha as [t [<- Ht]].
    destruct (set_has (usedWords c) (Some t)) eqn:Es.
    - unfold set_has in Es. apply existsb_exists in Es as [y [Hy Ey]].
      apply opt_string_eqb_true in Ey. subst y. exact Hy.
    - assert (Hin : In t (filter (fun term => negb (set_has (usedWords c) (Some term))) designTerms)).
      { apply filter_In. rewrite Es. auto. }
      rewrite Hf in Hin. destruct Hin. }
  pose proof (NoDup_incl_length designTerms_NoDup Hinc) as Hl.
  rewrite length_map in Hl. lia.
Qed.

Definition words_inv (c : canvas) : Prop :=
  CanvasFacts.canvas_inv c /\ usedWords c = map w_text (renderedWords c).

Lemma handleWordGeneration_used (c : canvas) (r : draws) :
  words_inv c -> draws_ok r ->
  usedWords (handleWordGeneration c r) = map w_text (renderedWords (handleWordGeneration c r)).
Proof.
  intros [Hinv Hu] [_ [Hpick _]]. unfold handleWordGeneration.
  destruct (Qltb (95 # 100) (r_gen r) && Nat.ltb (List.length (usedWords c)) (List.length designTerms))
    eqn:G; [|exact Hu].
  apply andb_true_iff in G as [_ G]. apply Nat.ltb_lt in G.
  unfold addText. destruct (Qltb _ (150 * 150)); [exact Hu|].
  pose proof (available_terms_nonempty c Hinv G) as Hne.
  remember (filter (fun term => negb (set_has (usedWords c) (Some term))) designTerms)
    as avail eqn:Ea.
  destruct avail as [|t0 rest]; [exfalso; apply Hne; reflexivity|].
  destruct (CanvasFacts.random_index_in_range (r_pick r) (List.length (t0 :: rest)) Hpick)
    as [Hlo Hhi]; [simpl; lia|].
  destruct (Qfloor (r_pick r * inject_Z (Z.of_nat (List.length (t0 :: rest)))) <? 0)%Z
    eqn:Eneg; [apply Z.ltb_lt in Eneg; lia|].
  destruct (nth_error (t0 :: rest) _) as [t|] eqn:En; [|apply nth_error_None in En; lia].
  apply nth_error_In in En. rewrite Ea in En. apply filter_In in En as [_ Hnot].
  apply negb_true_iff in Hnot.
  unfold set_add. simpl. rewrite Hnot, map_app, Hu. reflexivity.
Qed.

Lemma words_inv_step (c : canvas) (ev : canvas_event) :
  words_inv c -> canvas_event_ok ev -> words_inv (canvas_step c ev).
Proof.
  intros [Hinv Hu] Hok. split; [apply CanvasFacts.canvas_inv_step; assumption|].
  destruct ev as [x y l t | r]; simpl; [exact Hu|].
  unfold animateFrame, drawWords. simpl. rewrite map_map.
  rewrite (map_ext (fun x => w_text (fade_word x)) w_text)
    by (intro w; destruct (fade_word_evolves w) as [E _]; exact E).
  apply handleWordGeneration_used; [|exact Hok]. split; [|exact Hu].
  destruct Hinv as (H1 & H2 & H3). split; [exact H1|]. split; assumption.
Qed.

(** X6: on well-formed event runs, the drawn words carry pairwise distinct
    texts, each a term of [designTerms], so at most eleven words are ever
    drawn. *)
Theorem rendered_word_texts_distinct (evs : list canvas_event) :
  Forall canvas_event_ok evs ->
  let c := run_canvas init evs in
  NoDup (map w_text (renderedWords c)) /\
  Forall (fun w => exists t, w_text w = Some t /\ In t designTerms) (renderedWords c) /\
  (List.length (renderedWords c) <= List.length designTerms)%nat.
Proof.
  intro Hok. cbv zeta.
  assert (Hw : words_inv (run_canvas init evs)).
  { assert (H0 : words_inv init) by (split; [exact CanvasFacts.canvas_inv_init|reflexivity]).
    revert H0 Hok. generalize init. induction evs as [|ev evs IH]; intros c Hc Hok; [exact Hc|].
    inversion Hok; subst. simpl. apply IH; [apply words_inv_step|]; assumption. }
  destruct Hw as [(_ & Hnd & Hinc) Hu]. rewrite <- Hu.
  split; [exact Hnd|]. split.
  - apply Forall_forall. intros w Hw.
    assert (Hin : In (w_text w) (usedWords (run_canvas init evs))).
    { rewrite Hu. apply in_map. exact Hw. }
    apply Hinc, in_map_iff in Hin as [t [Ht Hin]]. exists t. auto.
  - rewrite <- (length_map w_text), <- Hu, <- (length_map Some designTerms).
    apply NoDup_incl_length; assumption.
Qed.

Lemma rendered_word_texts_distinct_witness :
  Forall canvas_event_ok (placing_events 2) /\
  NoDup (map w_text (renderedWords (run_canvas init (placing_events 2)))).
Proof.
  assert (Hd : draws_ok placing_draws).
  { unfold draws_ok, placing_draws. simpl. repeat split; vm_compute; (reflexivity || discriminate). }
  assert (Hf : Forall canvas_event_ok (placing_events 2)).
  { simpl. repeat (apply Forall_cons || apply Forall_nil); simpl; first [exact I | exact Hd]. }
  split; [exact Hf|]. apply (rendered_word_texts_distinct (placing_events 2) Hf).
Defined.

Lemma q_between_step (a m s : Q) : 0 < s < 1 -> q_between a (a + (m - a) * s) m.
Proof.
  intros [Hs0 Hs1]. unfold q_between.
  destruct (Qlt_le_dec a m) as [H|H].
  - left. assert (H1 : 0 <= (m - a) * s) by (apply Qmult_le_0_compat; lra).
    assert (H2 : 0 <= (m - a) * (1 - s)) by (apply Qmult_le_0_compat; lra).
    split; [lra|]. setoid_replace (m - a) with ((m - a) * s + (m - a) * (1 - s)) in H2 by ring.
    nra.
  - right. assert (H1 : 0 <= (a - m) * s) by (apply Qmult_le_0_compat; lra).
    assert (H2 : 0 <= (a - m) * (1 - s)) by (apply Qmult_le_0_compat; lra).
    split; nra.
Qed.

Lemma dots_handleWordGeneration (c : canvas) (r : draws) :
  dots (handleWordGeneration c r) = dots c.
Proof.
  unfold handleWordGeneration. destruct (_ && _); [|reflexivity].
  unfold addText. destruct (Qltb _ _); [reflexivity|]. destruct (filter _ _); reflexivity.
Qed.

Lemma dots_canvas_step (c : canvas) (ev : canvas_event) :
  dots (canvas_step c ev) =
  match ev with
  | CMouseMove _ _ _ _ => dots c
  | CFrame _ => map (update_dot (mousePosition c)) (dots c)
  end.
Proof.
  destruct ev as [x y l t | r]; [reflexivity|]. simpl.
  unfold animateFrame, drawWords. simpl. rewrite dots_handleWordGeneration. reflexivity.
Qed.



Lemma dots_run (evs : list canvas_event) :
  List.length (dots (run_canvas init evs)) = NUM_DOTS /\
  Forall speed_ok (dots (run_canvas init evs)).
Proof.
  assert (H0 : List.length (dots init) = NUM_DOTS /\ Forall speed_ok (dots init)).
  { split; [reflexivity|]. unfold speed_ok.
    repeat constructor; simpl; vm_compute; reflexivity. }
  revert H0. generalize init. induction evs as [|ev evs IH]; intros c [Hl Hs]; [auto|].
  simpl. apply IH. rewrite dots_canvas_step. destruct ev; [auto|].
  rewrite length_map. split; [exact Hl|]. apply Forall_map.
  eapply Forall_impl; [|exact Hs]. intros d Hd. exact Hd.
Qed.

(** X7: the canvas always has five trailing dots with easing factors in
    (0, 1); one animation frame moves each dot toward the pointer without
    passing it, on each axis, and keeps its speed and scale. *)
Theorem dots_follow_pointer (evs : list canvas_event) (r : draws) :
  let c := run_canvas init evs in
  List.length (dots c) = NUM_DOTS /\
  Forall (fun d => 0 < dot_speed d < 1) (dots c) /\
  Forall2 (fun d d' => q_between (dot_x d) (dot_x d') (fst (mousePosition c)) /\
                       q_between (dot_y d) (dot_y d') (snd (mousePosition c)) /\
                       dot_speed d' = dot_speed d /\ dot_scale d' = dot_scale d)
          (dots c) (dots (canvas_step c (CFrame r))).
Proof.
  cbv zeta. destruct (dots_run evs) as [Hl Hs].
  split; [exact Hl|]. split; [exact Hs|].
  rewrite dots_canvas_step. clear Hl.
  induction Hs as [|d ds Hd Hds IH]; simpl; [constructor|]. constructor; [|exact IH].
  split; [apply q_between_step; exact Hd|]. split; [apply q_between_step; exact Hd|].
  split; reflexivity.
Qed.

(** ** Class lists *)

Lemma cl_contains_add (l : class_list) (c d : string) :
  cl_contains (cl_add l c) d = cl_contains l d || String.eqb d c.
Proof.
  unfold cl_add. destruct (cl_contains l c) eqn:E.
  - destruct (String.eqb d c) eqn:Ed; [|rewrite orb_false_r; reflexivity].
    apply String.eqb_eq in Ed. subst d. rewrite E. reflexivity.
  - unfold cl_contains. rewrite existsb_app. simpl. rewrite orb_false_r. reflexivity.
Qed.

Lemma cl_contains_remove (l : class_list) (c d : string) :
  cl_contains (cl_remove l c) d = cl_contains l d && negb (String.eqb d c).
Proof.
  unfold cl_contains, cl_remove. induction l as [|x l IH]; simpl; [reflexivity|].
  destruct (String.eqb x c) eqn:Ex; simpl.
  - apply String.eqb_eq in Ex. subst x. rewrite IH.
    destruct (String.eqb d c) eqn:Ed; simpl; [rewrite !andb_false_r; reflexivity|].
    rewrite !andb_true_r. reflexivity.
  - rewrite IH. destruct (String.eqb d x) eqn:Edx; simpl.
    + apply String.eqb_eq in Edx. subst x. rewrite Ex. reflexivity.
    + reflexivity.
Qed.

Lemma cl_contains_toggle (l : class_list) (c d : string) :
  cl_contains (cl_toggle l c) d =
  if String.eqb d c then negb (cl_contains l c) else cl_contains l d.
Proof.
  unfold cl_toggle. destruct (cl_contains l c) eqn:E.
  - rewrite cl_contains_remove. destruct (String.eqb d c) eqn:Ed; simpl.
    + apply andb_false_r.
    + apply andb_true_r.
  - rewrite cl_contains_add. destruct (String.eqb d c) eqn:Ed; simpl.
    + apply orb_true_r.
    + apply orb_false_r.
Qed.

(** ** Section reveal *)

Lemma nth_error_update_nth {A} (f : A -> A) (n i : nat) (l : list A) :
  nth_error (update_nth f n l) i =
  if Nat.eqb n i then option_map f (nth_error l i) else nth_error l i.
Proof.
  revert n i. induction l as [|x l IH]; intros n i; simpl.
  - destruct n, (Nat.eqb _ i), i; reflexivity.
  - destruct n as [|n'], i as [|i']; simpl; try reflexivity. apply IH.
Qed.

Lemma length_update_nth {A} (f : A -> A) (n : nat) (l : list A) :
  List.length (update_nth f n l) = List.length l.
Proof. revert n. induction l as [|x l IH]; intro n; destruct n; simpl; auto. Qed.

Lemma nth_error_indexed {A B} (g : nat * A -> B) (k i : nat) (l : list A) :
  nth_error (map g (combine (seq k (List.length l)) l)) i =
  option_map (fun a => g ((k + i)%nat, a)) (nth_error l i).
Proof.
  revert k i. induction l as [|x l IH]; intros k i; simpl; [destruct i; reflexivity|].
  destruct i as [|i']; simpl; [rewrite Nat.add_0_r; reflexivity|].
  rewrite IH. destruct (nth_error l i'); simpl; [|reflexivity].
  do 3 f_equal. lia.
Qed.

Lemma reveal_entries (es : list io_entry) (secs : list reveal_section) (i : nat) (sec : reveal_section) :
  nth_error secs i = Some sec ->
  exists sec', nth_error (fold_left ScrollObserverController.handleSectionIntersection es secs) i = Some sec' /\
    rs_delay sec' = rs_delay sec /\
    forall c, cl_contains (rs_classes sec') c =
              cl_contains (rs_classes sec) c ||
              (String.eqb c "active" &&
               existsb (fun e => Nat.eqb (entry_target e) i && isIntersecting e) es).
Proof.
  revert secs sec. induction es as [|e es IH]; intros secs sec H; simpl.
  - exists sec. split; [exact H|]. split; [reflexivity|]. intro c.
    rewrite andb_false_r, orb_false_r. reflexivity.
  - set (secs1 := ScrollObserverController.handleSectionIntersection secs e).
    assert (H1 : exists sec1, nth_error secs1 i = Some sec1 /\ rs_delay sec1 = rs_delay sec /\
               forall c, cl_contains (rs_classes sec1) c =
                         cl_contains (rs_classes sec) c ||
                         (String.eqb c "active" && (Nat.eqb (entry_target e) i && isIntersecting e))).
    { unfold secs1, ScrollObserverController.handleSectionIntersection.
      destruct (isIntersecting e); [|exists sec; split; [exact H|]; split; [reflexivity|];
        intro c; rewrite !andb_false_r, orb_false_r; reflexivity].
      rewrite nth_error_update_nth, H. destruct (Nat.eqb (entry_target e) i); simpl.
      - eexists. split; [reflexivity|]. split; [reflexivity|]. intro c.
        cbn [rs_classes]. rewrite cl_contains_add, andb_true_r. reflexivity.
      - exists sec. split; [reflexivity|]. split; [reflexivity|]. intro c.
        rewrite andb_false_r, orb_false_r. reflexivity. }
    destruct H1 as [sec1 [Hs1 [Hd1 Hc1]]].
    destruct (IH secs1 sec1 Hs1) as [sec' [Hs' [Hd' Hc']]].
    exists sec'. split; [exact Hs'|]. split; [congruence|]. intro c.
    rewrite Hc', Hc1. simpl.
    destruct (String.eqb c "active"), (cl_contains (rs_classes sec) c),
      (Nat.eqb (entry_target e) i && isIntersecting e), (existsb _ es); reflexivity.
Qed.

Lemma length_reveal_entries (es : list io_entry) (secs : list reveal_section) :
  List.length (fold_left ScrollObserverController.handleSectionIntersection es secs) = List.length secs.
Proof.
  revert secs. induction es as [|e es IH]; intro secs; simpl; [reflexivity|].
  rewrite IH. unfold ScrollObserverController.handleSectionIntersection.
  destruct (isIntersecting e); [apply length_update_nth|reflexivity].
Qed.

Lemma fold_callbacks_concat (batches : list (list io_entry)) (secs : list reveal_section) :
  fold_left ScrollObserverController.observer_callback batches secs =
  fold_left ScrollObserverController.handleSectionIntersection (concat batches) secs.
Proof.
  revert secs. induction batches as [|b bs IH]; intro secs; simpl; [reflexivity|].
  rewrite fold_left_app, IH. reflexivity.
Qed.

(** X8: after [initializeObservers] and any sequence of observer callbacks,
    section [i] has transition delay [i*200 ms], carries [active] iff it
    had it already or some entry for it intersected, and keeps every
    other class: sections are never hidden again. *)
Theorem reveal_sections_sticky (secs : list reveal_section) (batches : list (list io_entry)) :
  let s := fold_left ScrollObserverController.observer_callback batches
             (ScrollObserverController.initializeObservers secs) in
  List.length s = List.length secs /\
  forall i sec, nth_error secs i = Some sec ->
  exists sec', nth_error s i = Some sec' /\
    rs_delay sec' = Some (string_of_nat (i * 200) ++ "ms")%string /\
    cl_contains (rs_classes sec') "active" =
      cl_contains (rs_classes sec) "active" ||
      existsb (fun e => Nat.eqb (entry_target e) i && isIntersecting e) (concat batches) /\
    (forall c, c <> "active"%string -> cl_contains (rs_classes sec') c = cl_contains (rs_classes sec) c).
Proof.
  cbv zeta. rewrite fold_callbacks_concat. split.
  - rewrite length_reveal_entries. unfold ScrollObserverController.initializeObservers.
    rewrite length_map, length_combine, length_seq. lia.
  - intros i sec H.
    assert (H0 : nth_error (ScrollObserverController.initializeObservers secs) i =
                 Some (mk_reveal (rs_classes sec) (Some (string_of_nat (i * 200) ++ "ms")%string))).
    { unfold ScrollObserverController.initializeObservers.
      rewrite (nth_error_indexed
                 (fun '(i, s) => mk_reveal (rs_classes s) (Some (string_of_nat (i * 200) ++ "ms")%string))
                 0 i secs), H.
      reflexivity. }
    destruct (reveal_entries (concat batches) _ i _ H0) as [sec' [Hs [Hd Hc]]].
    exists sec'. split; [exact Hs|]. split; [exact Hd|]. split.
    + rewrite Hc. reflexivity.
    + intros c Hne. rewrite Hc. simpl.
      apply String.eqb_neq in Hne. rewrite Hne. apply orb_false_r.
Qed.

(** X9: [toggleProfileVisibility] throws when the container is missing;
    otherwise it flips exactly the classes [hidden] and [flex], and
    calling it twice restores every class. *)
Theorem toggle_profile_visibility_flips :
  toggleProfileVisibility None = ThrewTypeError /\
  forall cl : class_list,
  exists cl', toggleProfileVisibility (Some cl) = Returned cl' /\
    (forall c, cl_contains cl' c =
               if String.eqb c "hidden" || String.eqb c "flex"
               then negb (cl_contains cl c) else cl_contains cl c) /\
    (exists cl'', toggleProfileVisibility (Some cl') = Returned cl'' /\
                  forall c, cl_contains cl'' c = cl_contains cl c).
Proof.
  assert (Hf : forall cl c, cl_contains (cl_toggle (cl_toggle cl "hidden") "flex") c =
               if String.eqb c "hidden" || String.eqb c "flex"
               then negb (cl_contains cl c) else cl_contains cl c).
  { intros cl c. rewrite !cl_contains_toggle.
    destruct (String.eqb c "flex") eqn:Ef, (String.eqb c "hidden") eqn:Eh; simpl.
    - apply String.eqb_eq in Ef, Eh. congruence.
    - apply String.eqb_eq in Ef. subst c. reflexivity.
    - apply String.eqb_eq in Eh. subst c. reflexivity.
    - reflexivity. }
  split; [reflexivity|]. intro cl. eexists. split; [reflexivity|]. split; [apply Hf|].
  eexists. split; [reflexivity|]. intro c. rewrite Hf, Hf.
  destruct (String.eqb c "hidden" || String.eqb c "flex"); [apply negb_involutive|reflexivity].
Qed.

(** ** Profile modal *)



Ltac modal_simpl :=
  repeat progress (simpl; rewrite ?cl_contains_add, ?cl_contains_remove; simpl;
    repeat match goal with
    | H : cl_contains _ _ = _ |- _ => rewrite H
    | |- context [?a <=? ?b] =>
        let E := fresh in destruct (a <=? b) eqn:E;
        [apply Nat.leb_le in E | apply Nat.leb_gt in E]; try (exfalso; lia)
    end).

(** X10: closing the visible profile modal adds [translate-y-full] and
    [opacity-0] at once and [hidden] only 300 ms later. A second click
    within those 300 ms takes the closing branch again, not the opening
    one: it schedules no animation-frame callback, so after the next frame
    the modal still carries both transition classes, and it ends hidden. *)
Lemma modal_close_sequence (cl : class_list) (n d : nat) :
  cl_contains cl "hidden" = false -> (d < 300)%nat ->
  let w0 := mk_modal_world (Some cl) [] [] n in
  let closing := run_modal w0 [ToggleClick; Advance d] in
  let closed := run_modal w0 [ToggleClick; Advance 300] in
  let reclick := run_modal w0 [ToggleClick; Advance d; ToggleClick] in
  let framed := run_modal w0 [ToggleClick; Advance d; ToggleClick; ModalFrame] in
  let twice := run_modal w0 [ToggleClick; Advance d; ToggleClick; ModalFrame; Advance 300] in
  modal_has closing "hidden" = false /\ modal_has closing "translate-y-full" = true /\
  modal_has closing "opacity-0" = true /\
  modal_has closed "hidden" = true /\ modal_has closed "translate-y-full" = true /\
  modal_has closed "opacity-0" = true /\
  modal_raf reclick = [] /\
  modal_has framed "hidden" = false /\ modal_has framed "translate-y-full" = true /\
  modal_has framed "opacity-0" = true /\
  modal_has twice "hidden" = true /\ modal_has twice "translate-y-full" = true /\
  modal_has twice "opacity-0" = true.
Proof.
  intros Hh Hd. cbv zeta. unfold modal_has. simpl. unfold toggleProfileImage. modal_simpl.
  rewrite ?orb_true_r. repeat split.
Qed.

(** X11: opening the hidden profile modal removes [hidden] at once and the
    transition classes on the next animation frame; a second click before
    that frame leaves the modal hidden, without [translate-y-full] or
    [opacity-0]. *)
Lemma modal_open_sequence (cl : class_list) (n : nat) :
  cl_contains cl "hidden" = true ->
  let w0 := mk_modal_world (Some cl) [] [] n in
  let opened := run_modal w0 [ToggleClick; ModalFrame] in
  let reclosed := run_modal w0 [ToggleClick; ToggleClick; ModalFrame; Advance 300] in
  modal_has (run_modal w0 [ToggleClick]) "hidden" = false /\
  modal_has opened "hidden" = false /\ modal_has opened "translate-y-full" = false /\
  modal_has opened "opacity-0" = false /\
  modal_has reclosed "hidden" = true /\ modal_has reclosed "translate-y-full" = false /\
  modal_has reclosed "opacity-0" = false.
Proof.
  intros Hh. cbv zeta. unfold modal_has. simpl. unfold toggleProfileImage. modal_simpl.
  rewrite ?andb_false_r, ?andb_true_r, ?orb_false_r, ?andb_false_r. repeat split.
Qed.

(** ** Feeds *)



Lemma render_repo_not_null (j : json) (w : world) :
  j <> JNull -> GitHubFeed.render_repo j w = Done (RepoCard j) w.
Proof. intro H. destruct j; try reflexivity. congruence. Qed.

Lemma render_repos_ok (items : list json) (w : world) :
  ~ In JNull items -> mapM GitHubFeed.render_repo items w = Done (map RepoCard items) w.
Proof.
  induction items as [|j items IH]; intro H; [reflexivity|].
  cbn [mapM map]. unfold bind at 1.
  rewrite render_repo_not_null by (intro E; apply H; left; congruence).
  unfold bind. rewrite IH by (intro E; apply H; right; exact E). reflexivity.
Qed.

Lemma render_repos_null (items : list json) (w : world) :
  In JNull items ->
  mapM GitHubFeed.render_repo items w = Thrown (type_error_reading "null" "private") w.
Proof.
  induction items as [|j items IH]; intro H; [destruct H|].
  cbn [mapM]. unfold bind at 1. destruct j; try reflexivity;
  (rewrite render_repo_not_null by discriminate;
   destruct H as [E|H]; [discriminate|];
   unfold bind; rewrite IH by exact H; reflexivity).
Qed.

(** X12: on a 2xx response with an array body, the repository feed renders
    one card per element, in order, when no element is [null]; with a
    [null] element it shows only the error block for reading [private]
    of null. *)
Lemma github_repo_cards (st : Z) (items : list json) (c0 : list block)
    (rest : list fetch_outcome) :
  (200 <= st <= 299)%Z ->
  let w0 := mk_world (Some c0) (FResolve (mk_response st (Some (JArr items))) :: rest) in
  (~ In JNull items ->
   GitHubFeed.fetchGitHubRepos w0 = Done tt (mk_world (Some (map RepoCard items)) rest)) /\
  (In JNull items ->
   GitHubFeed.fetchGitHubRepos w0
   = Done tt (mk_world (Some [ErrorDiv ("Error loading projects: " ++
        "Cannot read properties of null (reading 'private')")]) rest)).
Proof.
  intros Hst. cbv zeta.
  assert (Hok : response_ok (mk_response st (Some (JArr items))) = true).
  { unfold response_ok; simpl. apply andb_true_intro; split; apply Z.leb_le; lia. }
  split; intro H.
  - apply try_done. do 2 (eapply bind_step; [reflexivity|]; cbn beta).
    rewrite Hok. cbn -[mapM]. unfold bind at 1. rewrite render_repos_ok by exact H. reflexivity.
  - unfold GitHubFeed.fetchGitHubRepos, try_catch, bind, set_container, fetch, response_json.
    simpl. rewrite Hok. simpl. rewrite render_repos_null by exact H. reflexivity.
Qed.

Lemma collect_files_general (pfs : list (list (string * json)))
    (xs : list (string + (Z * list figma_file))) (acc : list figma_file)
    (c : option (list block)) (rest : list fetch_outcome) :
  List.length pfs = List.length xs ->
  FigmaFeed.collect_files (map JObj pfs) (map file_json acc)
    (mk_world c (map project_outcome xs ++ rest))
  = Done (map file_json (acc ++ concat (map project_files xs))) (mk_world c rest).
Proof.
  revert xs acc. induction pfs as [|pf pfs IH]; intros [|x xs] acc Hl; try discriminate Hl.
  - simpl. rewrite app_nil_r. reflexivity.
  - cbn [map FigmaFeed.collect_files].
    eapply bind_step; [reflexivity|]. cbn beta.
    destruct x as [m|[st fs]].
    + eapply bind_step; [reflexivity|]. cbn beta.
      eapply bind_step; [reflexivity|]. cbn beta.
      rewrite app_nil_r. rewrite IH by (simpl in Hl; lia). reflexivity.
    + eapply bind_step; [reflexivity|]. cbn beta.
      eapply bind_step; [reflexivity|]. cbn beta.
      rewrite <- map_app. rewrite IH by (simpl in Hl; lia).
      simpl. rewrite app_assoc. reflexivity.
Qed.

(** X13: for any number of projects whose file-list requests are rejected or
    resolve with a [files] list of validly dated files, the design feed
    renders the newest [min 5 n] of the [n] files collected, newest first,
    none older than a dropped one; rejected projects contribute no
    files. *)
Theorem design_feed_any_projects (pd : string -> jsnum) (pfs : list (list (string * json)))
    (xs : list (string + (Z * list figma_file))) (st0 : Z) (c0 : list block)
    (rest : list fetch_outcome) :
  List.length pfs = List.length xs ->
  Forall (valid_time pd) (concat (map project_files xs)) ->
  let all := concat (map project_files xs) in
  exists top others : list figma_file,
    FigmaFeed.fetchRecentFigmaFiles pd
      (mk_world (Some c0)
         (FResolve (mk_response st0 (Some (team_body (map JObj pfs))))
            :: map project_outcome xs ++ rest))
    = Done tt (mk_world (Some (map (fun f => FigmaCard (file_json f)) top)) rest) /\
    List.length top = Nat.min 5 (List.length all) /\
    Permutation (top ++ others) all /\
    Sorted (fun a b => file_time pd b <= file_time pd a) top /\
    Forall (fun a => Forall (fun b => file_time pd b <= file_time pd a) others) top.
Proof.
  intros Hl Hv. cbv zeta.
  set (all := concat (map project_files xs)) in *.
  set (s := sort_desc_aux pd all []).
  assert (Hperm : Permutation s all).
  { unfold s. rewrite sort_desc_aux_perm, app_nil_r. reflexivity. }
  assert (Hsort : StronglySorted (fun a b => file_time pd b <= file_time pd a) s).
  { apply sort_desc_aux_sorted. constructor. }
  exists (firstn 5 s), (skipn 5 s).
  rewrite (firstn_skipn 5 s). split; [|split; [|split; [exact Hperm|split]]].
  - unfold FigmaFeed.fetchRecentFigmaFiles, container_exists, bind at 1.
    cbn -[FigmaFeed.collect_files FigmaFeed.sort_files firstn map].
    apply try_done.
    do 5 (eapply bind_step; [reflexivity|]; cbn beta).
    eapply bind_step; [apply (collect_files_general pfs xs [] (Some [Spinner]) rest Hl)|]. cbn beta.
    eapply bind_step; [exact (sort_files_aux_json pd all [] _ Hv (Forall_nil _))|].
    cbn beta. fold s. rewrite firstn_map. unfold FigmaFeed.renderFigmaProjects.
    eapply bind_step; [reflexivity|]. cbn beta iota.
    eapply bind_step; [apply render_figma_files|]. reflexivity.
  - rewrite length_firstn, (Permutation_length Hperm). reflexivity.
  - apply StronglySorted_Sorted. rewrite <- (firstn_skipn 5 s) in Hsort.
    exact (strongly_sorted_prefix _ _ _ Hsort).
  - rewrite <- (firstn_skipn 5 s) in Hsort. apply strongly_sorted_app in Hsort.
    exact Hsort.
Qed.

Lemma collect_files_app (l1 l2 acc : list json) (w : world) :
  FigmaFeed.collect_files (l1 ++ l2) acc w
  = bind (FigmaFeed.collect_files l1 acc) (fun a => FigmaFeed.collect_files l2 a) w.
Proof.
  revert acc w. induction l1 as [|p l1 IH]; intros acc w; [reflexivity|].
  cbn [app FigmaFeed.collect_files]. unfold bind in *.
  destruct (get_prop (Some p) "id" w) as [pid w1|e w1|w1]; try reflexivity.
  destruct (FigmaFeed.getFigmaProjectFiles pid w1) as [fl w2|e w2|w2]; try reflexivity.
  destruct (iterate fl w2) as [items w3|e w3|w3]; try reflexivity.
  apply IH.
Qed.

Lemma bind_thrown {A B} (m : M A) (k : A -> M B) (w w' : world) (e : exn) :
  m w = Thrown e w' -> bind m k w = Thrown e w'.
Proof. intro H. unfold bind. rewrite H. reflexivity. Qed.

(** X14: when a project's file-list response is a JSON object without a
    [files] key, the design feed shows a single error block and no file,
    even if earlier projects returned files. *)
Lemma design_feed_files_key_missing (pd : string -> jsnum)
    (pfs : list (list (string * json))) (xs : list (string + (Z * list figma_file)))
    (pf : list (string * json)) (pfs2 : list (list (string * json)))
    (st0 st : Z) (fs : list (string * json)) (c0 : list block) (rest : list fetch_outcome) :
  List.length pfs = List.length xs ->
  lookup_field "files" fs = None ->
  exists t,
    FigmaFeed.fetchRecentFigmaFiles pd
      (mk_world (Some c0)
         (FResolve (mk_response st0 (Some (team_body (map JObj (pfs ++ pf :: pfs2)))))
            :: map project_outcome xs ++ FResolve (mk_response st (Some (JObj fs))) :: rest))
    = Done tt (mk_world (Some [ErrorDiv t]) rest).
Proof.
  intros Hl Hf. eexists.
  unfold FigmaFeed.fetchRecentFigmaFiles, container_exists, bind at 1.
  cbn -[FigmaFeed.collect_files FigmaFeed.sort_files firstn map].
  unfold try_catch.
  match goal with |- match ?m with Done _ _ => _ | _ => _ end = _ =>
    assert (E : m = Thrown not_iterable_error (mk_world (Some [Spinner]) rest));
    [|rewrite E; reflexivity] end.
  do 5 (eapply bind_step; [reflexivity|]; cbn beta).
  apply bind_thrown. rewrite map_app, collect_files_app.
  eapply bind_step; [apply (collect_files_general pfs xs [] (Some [Spinner])
     (FResolve (mk_response st (Some (JObj fs))) :: rest) Hl)|].
  cbn [map FigmaFeed.collect_files].
  eapply bind_step; [reflexivity|]. cbn beta.
  eapply bind_step.
  { unfold FigmaFeed.getFigmaProjectFiles. apply try_done.
    do 2 (eapply bind_step; [reflexivity|]; cbn beta). simpl. rewrite Hf. reflexivity. }
  reflexivity.
Qed.

Lemma idle_pointer_moves_witness :
  run_pane env_desktop pane_init [MouseMove 300 200; TouchMove OnDivider 10 20;
                                  MouseDown Elsewhere 1 2; TouchStart Elsewhere 3 4]
  = pane_init.
Proof. apply idle_pointer_moves; reflexivity. Defined.


Lemma modal_close_sequence_witness :
  cl_contains ["flex"]%string "hidden" = false /\ (100 < 300)%nat /\
  modal_has (run_modal (mk_modal_world (Some ["flex"]%string) [] [] 0)
               [ToggleClick; Advance 100]) "hidden" = false /\
  modal_has (run_modal (mk_modal_world (Some ["flex"]%string) [] [] 0)
               [ToggleClick; Advance 100; ToggleClick; ModalFrame]) "opacity-0" = true /\
  modal_has (run_modal (mk_modal_world (Some ["flex"]%string) [] [] 0)
               [ToggleClick; Advance 100; ToggleClick; ModalFrame; Advance 300]) "hidden" = true.
Proof.
  destruct (modal_close_sequence ["flex"]%string 0 100 eq_refl)
    as (H1 & _ & _ & _ & _ & _ & _ & _ & _ & H10 & H11 & _); [lia|].
  split; [reflexivity|]. split; [lia|]. split; [exact H1|]. split; [exact H10|exact H11].
Defined.

Lemma modal_open_sequence_witness :
  cl_contains ["hidden"]%string "hidden" = true /\
  modal_has (run_modal (mk_modal_world (Some ["hidden"]%string) [] [] 0)
               [ToggleClick; ToggleClick; ModalFrame; Advance 300]) "translate-y-full" = false.
Proof.
  destruct (modal_open_sequence ["hidden"]%string 0 eq_refl) as (_ & _ & _ & _ & _ & H6 & _).
  split; [reflexivity|exact H6].
Defined.

Lemma github_repo_cards_witness :
  GitHubFeed.fetchGitHubRepos
    (mk_world (Some [Spinner]) [FResolve (mk_response 200 (Some (JArr [JObj []; JNull])))])
  = Done tt (mk_world (Some [ErrorDiv ("Error loading projects: " ++
        "Cannot read properties of null (reading 'private')")]) []).
Proof.
  apply (proj2 (github_repo_cards 200 [JObj []; JNull] [Spinner] [] ltac:(lia))).
  right. left. reflexivity.
Defined.

Lemma design_feed_any_projects_witness :
  exists top others : list figma_file,
    FigmaFeed.fetchRecentFigmaFiles iso_digits_time
      (mk_world (Some [])
         (FResolve (mk_response 200 (Some (team_body (map JObj [[]; []]))))
            :: map project_outcome [inl "Failed to fetch"%string; inr (200%Z, sample_files2)] ++ []))
    = Done tt (mk_world (Some (map (fun f => FigmaCard (file_json f)) top)) []) /\
    List.length top = 4%nat.
Proof.
  assert (Hv : Forall (valid_time iso_digits_time)
                 (concat (map project_files [inl "Failed to fetch"%string; inr (200%Z, sample_files2)]))).
  { unfold sample_files2. simpl.
    repeat (apply Forall_cons; [eexists; reflexivity|]). apply Forall_nil. }
  destruct (design_feed_any_projects iso_digits_time [[]; []]
              [inl "Failed to fetch"%string; inr (200%Z, sample_files2)] 200 [] [] eq_refl Hv)
    as (top & others & H1 & H2 & _).
  exists top, others. split; [exact H1|]. rewrite H2. reflexivity.
Defined.

Lemma design_feed_files_key_missing_witness :
  exists t,
    FigmaFeed.fetchRecentFigmaFiles iso_digits_time
      (mk_world (Some [])
         (FResolve (mk_response 200 (Some (team_body (map JObj ([[]] ++ [] :: [])))))
            :: map project_outcome [inr (200%Z, sample_files1)] ++
            FResolve (mk_response 403 (Some (JObj [("err"%string, JStr "Invalid token")]))) :: []))
    = Done tt (mk_world (Some [ErrorDiv t]) []).
Proof.
  apply (design_feed_files_key_missing iso_digits_time [[]] [inr (200%Z, sample_files1)] [] []
           200 403 [("err"%string, JStr "Invalid token")] [] []); reflexivity.
Defined.
